(** * Interactive message page: particle field and reveal/cycle state machine

    A shallow embedding of the three variants of the page script:

    - [TapRipple]: [src/script.js], lines 1-352 (ripple on every tap, a
      reveal that happens once);
    - [Cycling]: [src/script.js], lines 353-748 (messages cycle on every
      interaction after the reveal, bursts at the interaction point);
    - [Basic]: [src/unnamed/part_000] (reveal once, bursts at the centre).

    The particle system (class [Particle], [initParticles],
    [createParticleBurst], [animate]) is the same text in the three
    variants and is embedded once.

    Numbers.  A JavaScript Number is embedded as an exact rational ([Q]):
    additions, products and comparisons are the exact ones, and [NaN],
    infinities and the sign of zero are not represented.  Module
    [Binary64] re-runs the one countdown whose outcome could depend on
    rounding with IEEE-754 binary64 arithmetic.  An argument or property
    that may be [undefined] is an [option].

    Effects.  Module-level [let]/[const] bindings, the DOM nodes, the 2D
    context, pending [setTimeout] callbacks and the supply of
    [Math.random()] results are the fields of one [State] record, threaded
    explicitly.  A callback handed to [setTimeout] is a [Deferred]
    descriptor: the closure's code together with the variables it
    captured. *)

From Stdlib Require Import QArith Qminmax Lqa Lia Floats.
From stdpp Require Import base list strings.

#[local] Open Scope Q_scope.

(** ** Numbers and truthiness *)

(** [a < b] and [a > b] on Numbers, as booleans. *)
Definition ltb (a b : Q) : bool := negb (Qle_bool b a).
Definition gtb (a b : Q) : bool := ltb b a.

(** [ToBoolean] of a Number: [0] is falsy, everything else is truthy. *)
Definition truthy (a : Q) : bool := negb (Qeq_bool a 0).

(** ** The supply of [Math.random()] results

    The state of the generator is the sequence of the results it will
    return; a draw takes the head and leaves the tail. *)

Definition Supply : Type := nat -> Q.

Definition Rand (A : Type) : Type := Supply -> A * Supply.

Definition ret {A} (a : A) : Rand A := fun g => (a, g).

Definition bind {A B} (m : Rand A) (k : A -> Rand B) : Rand B :=
  fun g => let (a, g') := m g in k a g'.

Notation "'let*' x ':=' m 'in' k" := (bind m (fun x => k))
  (at level 10, x name, m at level 100, k at level 200).

Definition Math_random : Rand Q := fun g => (g 0%nat, fun n => g (S n)).

(** Every result of [Math.random()] lies in [[0, 1)]. *)
Definition unit_supply (g : Supply) : Prop := forall n, 0 <= g n < 1.

(** The supply that is left after [k] draws. *)
Definition skip (k : nat) (g : Supply) : Supply := fun n => g (k + n)%nat.

(** [x || d]: the right operand is evaluated only when [x] is [undefined]
    or falsy. *)
Definition or_else (x : option Q) (d : Rand Q) : Rand Q :=
  match x with
  | Some v => if truthy v then ret v else d
  | None => d
  end.

(** ** Configuration, canvas and window *)

Module Message.
Record t := mk { title : string; subtitle : string }.
End Message.

(** The value of [CONFIG.currentMessageIndex]: an index, or [NaN] once
    the remainder by an empty list's length has been taken. *)
Inductive Index := Idx (i : nat) | NaN.

Module CONFIG.

Record Particles := {
  count : nat;
  maxSpeed : Q;
  size : Q;
  color : string;
  glowOnReveal : bool
}.

Record Animation := {
  revealDelay : nat;
  particleBurstCount : nat
}.

Record Ripple := {
  ripple_size : Q;
  alwaysShow : bool
}.

Record t := mk {
  particles : Particles;
  animation : Animation;
  ripple : Ripple;
  messages : list Message.t;
  currentMessageIndex : Index
}.

End CONFIG.

Record Canvas := { width : Q; height : Q }.

(** ** The 2D context: the style in force and the discs painted since the
    last [clearRect] of the whole surface.

    A disc records the values the script assigned to [globalAlpha] and
    [fillStyle] before filling it.  A context ignores an alpha outside
    [[0, 1]] and a style that is not a CSS colour; that filter is the
    host's and is not represented. *)

Record Disc := {
  cx : Q;
  cy : Q;
  radius : Q;
  alpha : Q;
  fill : string
}.

Record Context2D := {
  fillStyle : string;
  globalAlpha : Q;
  painted : list Disc
}.

(** ** Particles *)

Module Particle.

Record t := mk {
  x : Q;
  y : Q;
  size : Q;
  speedX : Q;
  speedY : Q;
  opacity : Q;
  life : Q;
  decay : Q
}.

(** [constructor(x, y, burst = false)].  The initialisers run in the
    order of the source, so the draws are taken in that order. *)
Definition constructor (cv : Canvas) (cfg : CONFIG.Particles)
    (x0 y0 : option Q) (burst : bool) : Rand t :=
  let* px := or_else x0 (let* r := Math_random in ret (r * width cv)) in
  let* py := or_else y0 (let* r := Math_random in ret (r * height cv)) in
  let* sz := (if burst then let* r := Math_random in ret (r * 3 + 1)
              else ret (CONFIG.size cfg)) in
  let* sx := (let* r := Math_random in
              ret ((r - 0.5) * (if burst then 2 else CONFIG.maxSpeed cfg))) in
  let* sy := (let* r := Math_random in
              ret ((r - 0.5) * (if burst then 2 else CONFIG.maxSpeed cfg))) in
  let* op := (if burst then ret 1
              else let* r := Math_random in ret (r * 0.5 + 0.3)) in
  ret {| x := px; y := py; size := sz; speedX := sx; speedY := sy;
         opacity := op;
         life := if burst then 1 else 1;
         decay := if burst then 0.02 else 0 |}.

(** One wrap test pair of [update], on one axis: [if (c > bound) c = 0;
    if (c < 0) c = bound;]. *)
Definition wrap (bound c : Q) : Q :=
  let c1 := if gtb c bound then 0 else c in
  if ltb c1 0 then bound else c1.

Definition update (cv : Canvas) (p : t) : t :=
  let x1 := x p + speedX p in
  let y1 := y p + speedY p in
  let life1 := if gtb (decay p) 0 then life p - decay p else life p in
  let opacity1 := if gtb (decay p) 0 then life1 else opacity p in
  {| x := wrap (width cv) x1;
     y := wrap (height cv) y1;
     size := size p;
     speedX := speedX p;
     speedY := speedY p;
     opacity := opacity1;
     life := life1;
     decay := decay p |}.

(** [draw()]: one filled disc in the configured colour and the particle's
    opacity; the alpha of the context is reset afterwards. *)
Definition draw (fillColor : string) (p : t) (c : Context2D) : Context2D :=
  {| fillStyle := fillColor;
     globalAlpha := 1;
     painted := painted c ++
       [{| cx := x p; cy := y p; radius := size p; alpha := opacity p;
           fill := fillColor |}] |}.

End Particle.

(** ** Events *)

Module Touch.
Record t := mk { clientX : Q; clientY : Q }.
End Touch.

(** The properties of an event object that the handlers read.  A mouse
    event has client coordinates and no [touches]; a touch event has
    [touches] and no client coordinates; a keyboard event has [key]. *)
Module Event.
Record t := mk {
  clientX : option Q;
  clientY : option Q;
  touches : option (list Touch.t);
  key : option string
}.
End Event.

(** ** The DOM nodes the script holds *)

(** [classList.add(c)]: a token list holds a token once. *)
Definition classList_add (c : string) (l : list string) : list string :=
  if decide (c ∈ l) then l else l ++ [c].

(** [classList.remove(c)]. *)
Definition classList_remove (c : string) (l : list string) : list string :=
  filter (fun d => d ≠ c) l.

Module Element.

Record t := mk {
  classList : list string;
  opacity : string;
  cursor : string;
  textContent : string
}.

Definition set_classList (v : list string) (s : t) : t :=
  {| classList := v; opacity := opacity s; cursor := cursor s;
     textContent := textContent s |}.

Definition set_opacity (v : string) (s : t) : t :=
  {| classList := classList s; opacity := v; cursor := cursor s;
     textContent := textContent s |}.

Definition set_cursor (v : string) (s : t) : t :=
  {| classList := classList s; opacity := opacity s; cursor := v;
     textContent := textContent s |}.

Definition set_textContent (v : string) (s : t) : t :=
  {| classList := classList s; opacity := opacity s; cursor := cursor s;
     textContent := v |}.

End Element.

(** A ripple [div], with the lengths of its inline style in pixels. *)
Module RippleNode.
Record t := mk {
  node : nat;
  className : string;
  left : Q;
  top : Q;
  width : Q;
  height : Q;
  marginLeft : Q;
  marginTop : Q
}.
End RippleNode.

Module Document.

Record t := mk {
  container : Element.t;
  instruction : Element.t;
  message : Element.t;
  subtitle : Element.t;
  hint : Element.t;
  body : list RippleNode.t;
  created : nat;
  scrollHeight : Q
}.

Definition set_container (v : Element.t) (s : t) : t :=
  {| container := v; instruction := instruction s; message := message s;
     subtitle := subtitle s; hint := hint s; body := body s;
     created := created s; scrollHeight := scrollHeight s |}.

Definition set_instruction (v : Element.t) (s : t) : t :=
  {| container := container s; instruction := v; message := message s;
     subtitle := subtitle s; hint := hint s; body := body s;
     created := created s; scrollHeight := scrollHeight s |}.

Definition set_message (v : Element.t) (s : t) : t :=
  {| container := container s; instruction := instruction s; message := v;
     subtitle := subtitle s; hint := hint s; body := body s;
     created := created s; scrollHeight := scrollHeight s |}.

Definition set_subtitle (v : Element.t) (s : t) : t :=
  {| container := container s; instruction := instruction s;
     message := message s; subtitle := v; hint := hint s; body := body s;
     created := created s; scrollHeight := scrollHeight s |}.

Definition set_hint (v : Element.t) (s : t) : t :=
  {| container := container s; instruction := instruction s;
     message := message s; subtitle := subtitle s; hint := v;
     body := body s; created := created s;
     scrollHeight := scrollHeight s |}.

Definition set_body (v : list RippleNode.t) (s : t) : t :=
  {| container := container s; instruction := instruction s;
     message := message s; subtitle := subtitle s; hint := hint s;
     body := v; created := created s; scrollHeight := scrollHeight s |}.

Definition set_created (v : nat) (s : t) : t :=
  {| container := container s; instruction := instruction s;
     message := message s; subtitle := subtitle s; hint := hint s;
     body := body s; created := v; scrollHeight := scrollHeight s |}.

Definition set_scrollHeight (v : Q) (s : t) : t :=
  {| container := container s; instruction := instruction s;
     message := message s; subtitle := subtitle s; hint := hint s;
     body := body s; created := created s; scrollHeight := v |}.

End Document.

(** ** The window and the optional host *)

(** [window.Telegram.WebApp], when present: the methods the host object
    has.  Calling a method it lacks throws a [TypeError]. *)
Record WebApp := {
  has_expand : bool;
  has_setHeaderColor : bool;
  has_setBackgroundColor : bool;
  has_enableClosingConfirmation : bool
}.

Record TelegramObject := { WebApp_ : option WebApp }.

Inductive HostCall :=
| expand
| setHeaderColor (c : string)
| setBackgroundColor (c : string)
| enableClosingConfirmation.

Record Window := {
  innerWidth : Q;
  innerHeight : Q;
  Telegram : option TelegramObject
}.

(** ** Deferred callbacks *)

(** The closures handed to [setTimeout], each with what it captured. *)
Inductive Deferred :=
| RevealTap                          (* TapRipple.revealMessage *)
| RevealAt (e : option Event.t)      (* Cycling.revealMessage *)
| RevealCentre                       (* Basic.revealMessage *)
| FadeIn (currentMsg : option Message.t) (e : option Event.t)
                                     (* Cycling.cycleMessage *)
| ClearActive                        (* handleInteraction *)
| RemoveRipple (n : nat).            (* TapRipple.createRipple *)

Record Timer := { delay : nat; callback : Deferred }.

(** ** Program state *)

Record State := {
  isRevealed : bool;
  particles : list Particle.t;
  animationId : option nat;
  config : CONFIG.t;
  canvas : Canvas;
  ctx : Context2D;
  window : Window;
  document : Document.t;
  timers : list Timer;
  random : Supply;
  console : list string;
  host : list HostCall;
  uncaught : list string
}.

Definition set_isRevealed (v : bool) (s : State) : State :=
  {| isRevealed := v; particles := particles s; animationId := animationId s;
     config := config s; canvas := canvas s; ctx := ctx s;
     window := window s; document := document s; timers := timers s;
     random := random s; console := console s; host := host s;
     uncaught := uncaught s |}.

Definition set_particles (v : list Particle.t) (s : State) : State :=
  {| isRevealed := isRevealed s; particles := v;
     animationId := animationId s; config := config s; canvas := canvas s;
     ctx := ctx s; window := window s; document := document s;
     timers := timers s; random := random s; console := console s;
     host := host s; uncaught := uncaught s |}.

Definition set_animationId (v : option nat) (s : State) : State :=
  {| isRevealed := isRevealed s; particles := particles s; animationId := v;
     config := config s; canvas := canvas s; ctx := ctx s;
     window := window s; document := document s; timers := timers s;
     random := random s; console := console s; host := host s;
     uncaught := uncaught s |}.

Definition set_config (v : CONFIG.t) (s : State) : State :=
  {| isRevealed := isRevealed s; particles := particles s;
     animationId := animationId s; config := v; canvas := canvas s;
     ctx := ctx s; window := window s; document := document s;
     timers := timers s; random := random s; console := console s;
     host := host s; uncaught := uncaught s |}.

Definition set_canvas (v : Canvas) (s : State) : State :=
  {| isRevealed := isRevealed s; particles := particles s;
     animationId := animationId s; config := config s; canvas := v;
     ctx := ctx s; window := window s; document := document s;
     timers := timers s; random := random s; console := console s;
     host := host s; uncaught := uncaught s |}.

Definition set_ctx (v : Context2D) (s : State) : State :=
  {| isRevealed := isRevealed s; particles := particles s;
     animationId := animationId s; config := config s; canvas := canvas s;
     ctx := v; window := window s; document := document s;
     timers := timers s; random := random s; console := console s;
     host := host s; uncaught := uncaught s |}.

Definition set_window (v : Window) (s : State) : State :=
  {| isRevealed := isRevealed s; particles := particles s;
     animationId := animationId s; config := config s; canvas := canvas s;
     ctx := ctx s; window := v; document := document s; timers := timers s;
     random := random s; console := console s; host := host s;
     uncaught := uncaught s |}.

Definition set_document (v : Document.t) (s : State) : State :=
  {| isRevealed := isRevealed s; particles := particles s;
     animationId := animationId s; config := config s; canvas := canvas s;
     ctx := ctx s; window := window s; document := v; timers := timers s;
     random := random s; console := console s; host := host s;
     uncaught := uncaught s |}.

Definition set_timers (v : list Timer) (s : State) : State :=
  {| isRevealed := isRevealed s; particles := particles s;
     animationId := animationId s; config := config s; canvas := canvas s;
     ctx := ctx s; window := window s; document := document s; timers := v;
     random := random s; console := console s; host := host s;
     uncaught := uncaught s |}.

Definition set_random (v : Supply) (s : State) : State :=
  {| isRevealed := isRevealed s; particles := particles s;
     animationId := animationId s; config := config s; canvas := canvas s;
     ctx := ctx s; window := window s; document := document s;
     timers := timers s; random := v; console := console s; host := host s;
     uncaught := uncaught s |}.

Definition set_console (v : list string) (s : State) : State :=
  {| isRevealed := isRevealed s; particles := particles s;
     animationId := animationId s; config := config s; canvas := canvas s;
     ctx := ctx s; window := window s; document := document s;
     timers := timers s; random := random s; console := v; host := host s;
     uncaught := uncaught s |}.

Definition set_host (v : list HostCall) (s : State) : State :=
  {| isRevealed := isRevealed s; particles := particles s;
     animationId := animationId s; config := config s; canvas := canvas s;
     ctx := ctx s; window := window s; document := document s;
     timers := timers s; random := random s; console := console s; host := v;
     uncaught := uncaught s |}.

Definition set_uncaught (v : list string) (s : State) : State :=
  {| isRevealed := isRevealed s; particles := particles s;
     animationId := animationId s; config := config s; canvas := canvas s;
     ctx := ctx s; window := window s; document := document s;
     timers := timers s; random := random s; console := console s;
     host := host s; uncaught := v |}.

(** [setTimeout(callback, delay)]. *)
Definition setTimeout (cb : Deferred) (ms : nat) (s : State) : State :=
  set_timers (timers s ++ [{| delay := ms; callback := cb |}]) s.

(** ** The particle system (the same text in the three variants) *)

(** The loop [for (let i = 0; i < n; i++) particles.push(new Particle(..))]:
    [n] constructions, each pushed at the end of the array. *)
Fixpoint push_loop (n : nat) (new : Rand Particle.t)
    (ps : list Particle.t) (g : Supply) : list Particle.t * Supply :=
  match n with
  | O => (ps, g)
  | S k => let (p, g') := new g in push_loop k new (ps ++ [p]) g'
  end.

Definition initParticles (s : State) : State :=
  let new :=
    Particle.constructor (canvas s) (CONFIG.particles (config s))
      None None false in
  let (ps, g) :=
    push_loop (CONFIG.count (CONFIG.particles (config s))) new [] (random s) in
  set_random g (set_particles ps s).

Definition createParticleBurst (x y : Q) (s : State) : State :=
  let new :=
    Particle.constructor (canvas s) (CONFIG.particles (config s))
      (Some x) (Some y) true in
  let (ps, g) :=
    push_loop (CONFIG.particleBurstCount (CONFIG.animation (config s))) new
      (particles s) (random s) in
  set_random g (set_particles ps s).

(** [addParticles(count)] of the utility surface. *)
Definition addParticles (n : nat) (s : State) : State :=
  let new :=
    Particle.constructor (canvas s) (CONFIG.particles (config s))
      None None false in
  let (ps, g) := push_loop n new (particles s) (random s) in
  set_random g (set_particles ps s).

(** [ctx.clearRect(0, 0, canvas.width, canvas.height)]. *)
Definition clearRect (c : Context2D) : Context2D :=
  {| fillStyle := fillStyle c; globalAlpha := globalAlpha c; painted := [] |}.

(** The callback of [particles.forEach] at [index].  [forEach] reads the
    array afresh at every index and passes over an index the array no
    longer has; the particle object is updated in place, and
    [splice(index, 1)] shifts every later particle one index down. *)
Definition visit (cv : Canvas) (fillColor : string) (index : nat)
    (st : list Particle.t * Context2D) : list Particle.t * Context2D :=
  let (ps, c) := st in
  match ps !! index with
  | None => (ps, c)
  | Some p =>
      let p' := Particle.update cv p in
      let c' := Particle.draw fillColor p' c in
      if Qle_bool (Particle.life p') 0
      then (delete index ps, c')
      else (<[index := p']> ps, c')
  end.

(** [particles.forEach(callback)]: the indices [0 .. length - 1], with the
    length read once, before the first call. *)
Definition forEach (cv : Canvas) (fillColor : string)
    (st : list Particle.t * Context2D) : list Particle.t * Context2D :=
  foldl (fun acc index => visit cv fillColor index acc) st
    (seq 0 (length st.1)).

(** [animate()].  The handle [requestAnimationFrame] returns is a fresh
    number at every call. *)
Definition animate (s : State) : State :=
  let (ps, c) :=
    forEach (canvas s) (CONFIG.color (CONFIG.particles (config s)))
      (particles s, clearRect (ctx s)) in
  let id := S (default 0%nat (animationId s)) in
  set_animationId (Some id) (set_ctx c (set_particles ps s)).

(** [setParticleColor(color)] of the utility surface. *)
Definition setParticleColor (c : string) (s : State) : State :=
  let cfg := config s in
  let pc := CONFIG.particles cfg in
  set_config
    (CONFIG.mk
       {| CONFIG.count := CONFIG.count pc; CONFIG.maxSpeed := CONFIG.maxSpeed pc;
          CONFIG.size := CONFIG.size pc; CONFIG.color := c;
          CONFIG.glowOnReveal := CONFIG.glowOnReveal pc |}
       (CONFIG.animation cfg) (CONFIG.ripple cfg) (CONFIG.messages cfg)
       (CONFIG.currentMessageIndex cfg)) s.

(** [setMessage(title, subtitleText)] of the utility surface. *)
Definition setMessage (title subtitleText : string) (s : State) : State :=
  let d := document s in
  set_document
    (Document.set_subtitle
       (Element.set_textContent subtitleText (Document.subtitle d))
       (Document.set_message
          (Element.set_textContent title (Document.message d)) d)) s.

(** ** DOM helpers *)

Definition add_class (c : string) (el : Element.t) : Element.t :=
  Element.set_classList (classList_add c (Element.classList el)) el.

Definition remove_class (c : string) (el : Element.t) : Element.t :=
  Element.set_classList (classList_remove c (Element.classList el)) el.

Definition on_container (f : Element.t -> Element.t) (s : State) : State :=
  set_document
    (Document.set_container (f (Document.container (document s))) (document s))
    s.

Definition on_instruction (f : Element.t -> Element.t) (s : State) : State :=
  set_document
    (Document.set_instruction (f (Document.instruction (document s)))
       (document s)) s.

Definition on_message (f : Element.t -> Element.t) (s : State) : State :=
  set_document
    (Document.set_message (f (Document.message (document s))) (document s)) s.

Definition on_subtitle (f : Element.t -> Element.t) (s : State) : State :=
  set_document
    (Document.set_subtitle (f (Document.subtitle (document s))) (document s))
    s.

Definition on_hint (f : Element.t -> Element.t) (s : State) : State :=
  set_document
    (Document.set_hint (f (Document.hint (document s))) (document s)) s.

Definition console_log (line : string) (s : State) : State :=
  set_console (console s ++ [line]) s.

(** [e.key === ' ' || e.key === 'Enter']. *)
Definition is_reveal_key (e : Event.t) : bool :=
  match Event.key e with
  | Some k => bool_decide (k = " ") || bool_decide (k = "Enter")
  | None => false
  end.

(** The part of every variant's [revealMessage] that runs at once on the
    first reveal: the flag, and the two nodes hidden. *)
Definition mark_revealed (s : State) : State :=
  on_hint (add_class "hidden")
    (on_instruction (add_class "hidden") (set_isRevealed true s)).

(** The active pulse of [handleInteraction]. *)
Definition pulse (s : State) : State :=
  setTimeout ClearActive 100 (on_container (add_class "active") s).

(** ** Optional host integration ([initTelegramWebApp], the same text in
    [TapRipple] and [Cycling]) *)

Inductive Completion :=
| Normal (s : State)
| Throw (err : string) (s : State).

Definition and_then (c : Completion) (k : State -> Completion) : Completion :=
  match c with
  | Normal s => k s
  | Throw err s => Throw err s
  end.

(** A method call on the host object. *)
Definition host_call (present : bool) (call : HostCall) (s : State)
    : Completion :=
  if present then Normal (set_host (host s ++ [call]) s)
  else Throw "TypeError" s.

Definition initTelegramWebApp (s : State) : Completion :=
  match Telegram (window s) with
  | Some telegram =>
      match WebApp_ telegram with
      | Some tg =>
          and_then (host_call (has_expand tg) expand s) (fun s1 =>
          and_then (host_call (has_setHeaderColor tg)
                      (setHeaderColor "#0f0f0f") s1) (fun s2 =>
          and_then (host_call (has_setBackgroundColor tg)
                      (setBackgroundColor "#0f0f0f") s2) (fun s3 =>
          and_then (host_call (has_enableClosingConfirmation tg)
                      enableClosingConfirmation s3) (fun s4 =>
          Normal (console_log "Telegram WebApp initialized" s4)))))
      | None => Normal s
      end
  | None => Normal s
  end.

(** ** Variant [Cycling] ([src/script.js], lines 353-748) *)

Module Cycling.

Definition setupCanvas (s : State) : State :=
  set_canvas
    {| width := innerWidth (window s); height := innerHeight (window s) |} s.

(** [getEventCoords(e)]; [e] is [undefined] on the keyboard path. *)
Definition getEventCoords (e : option Event.t) (s : State) : Q * Q :=
  let x := width (canvas s) / 2 in
  let y := height (canvas s) / 2 in
  match e with
  | Some ev =>
      match Event.touches ev with
      | Some (t0 :: _) => (Touch.clientX t0, Touch.clientY t0)
      | _ =>
          match Event.clientX ev, Event.clientY ev with
          | Some cx, Some cy => (cx, cy)
          | _, _ => (x, y)
          end
      end
  | None => (x, y)
  end.

(** [(CONFIG.currentMessageIndex + 1) % CONFIG.messages.length]; the
    remainder by [0] is [NaN], and [NaN] stays [NaN]. *)
Definition next_index (i : Index) (len : nat) : Index :=
  match i, len with
  | Idx k, S _ => Idx ((k + 1) mod len)
  | _, _ => NaN
  end.

(** [CONFIG.messages[i]]. *)
Definition message_at (msgs : list Message.t) (i : Index)
    : option Message.t :=
  match i with
  | Idx k => msgs !! k
  | NaN => None
  end.

Definition set_currentMessageIndex (i : Index) (s : State) : State :=
  let cfg := config s in
  set_config
    (CONFIG.mk (CONFIG.particles cfg) (CONFIG.animation cfg)
       (CONFIG.ripple cfg) (CONFIG.messages cfg) i) s.

Definition cycleMessage (e : option Event.t) (s : State) : State :=
  let i :=
    next_index (CONFIG.currentMessageIndex (config s))
      (length (CONFIG.messages (config s))) in
  let s1 := set_currentMessageIndex i s in
  let currentMsg := message_at (CONFIG.messages (config s1)) i in
  let s2 := on_message (Element.set_opacity "0") s1 in
  let s3 := on_subtitle (Element.set_opacity "0") s2 in
  setTimeout (FadeIn currentMsg e) 300 s3.

(** The callback of [cycleMessage].  With [currentMsg] undefined its
    first statement throws, and nothing of the callback takes effect. *)
Definition fade_in (currentMsg : option Message.t) (e : option Event.t)
    (s : State) : State :=
  match currentMsg with
  | Some m =>
      let s1 := on_message (Element.set_textContent (Message.title m)) s in
      let s2 :=
        on_subtitle (Element.set_textContent (Message.subtitle m)) s1 in
      let s3 := on_message (Element.set_opacity "1") s2 in
      let s4 := on_subtitle (Element.set_opacity "1") s3 in
      let (x, y) := getEventCoords e s4 in
      createParticleBurst x y s4
  | None => set_uncaught (uncaught s ++ ["TypeError"]) s
  end.

Definition revealMessage (e : option Event.t) (s : State) : State :=
  if isRevealed s then cycleMessage e s
  else
    setTimeout (RevealAt e)
      (CONFIG.revealDelay (CONFIG.animation (config s))) (mark_revealed s).

(** The callback of [revealMessage]. *)
Definition reveal_effect (e : option Event.t) (s : State) : State :=
  let s1 := on_message (add_class "revealed") s in
  let s2 := on_subtitle (add_class "revealed") s1 in
  if CONFIG.glowOnReveal (CONFIG.particles (config s2)) then
    let (x, y) := getEventCoords e s2 in createParticleBurst x y s2
  else s2.

Definition handleInteraction (e : Event.t) (s : State) : State :=
  pulse (revealMessage (Some e) s).

(** [handleKeyPress(e)]: the state, and whether [e.preventDefault()] was
    called. *)
Definition handleKeyPress (e : Event.t) (s : State) : State * bool :=
  if is_reveal_key e then (revealMessage None s, true) else (s, false).

Definition handleResize (s : State) : State :=
  initParticles (setupCanvas s).

Definition init (s : State) : State :=
  console_log "Click/tap anywhere to reveal the message"
    (console_log "Interactive message page initialized"
       (animate (initParticles (setupCanvas s)))).

End Cycling.

(** ** Variant [Basic] ([src/unnamed/part_000]) *)

Module Basic.

Definition setupCanvas (s : State) : State :=
  set_canvas
    {| width := innerWidth (window s); height := innerHeight (window s) |} s.

Definition revealMessage (s : State) : State :=
  if isRevealed s then s
  else
    setTimeout RevealCentre
      (CONFIG.revealDelay (CONFIG.animation (config s))) (mark_revealed s).

(** The callback of [revealMessage]. *)
Definition reveal_effect (s : State) : State :=
  let s1 := on_message (add_class "revealed") s in
  let s2 := on_subtitle (add_class "revealed") s1 in
  if CONFIG.glowOnReveal (CONFIG.particles (config s2)) then
    createParticleBurst (width (canvas s2) / 2) (height (canvas s2) / 2) s2
  else s2.

Definition handleInteraction (e : Event.t) (s : State) : State :=
  let s1 := pulse (revealMessage s) in
  createParticleBurst (width (canvas s1) / 2) (height (canvas s1) / 2) s1.

Definition handleKeyPress (e : Event.t) (s : State) : State * bool :=
  if is_reveal_key e then (revealMessage s, true) else (s, false).

Definition handleResize (s : State) : State :=
  initParticles (setupCanvas s).

Definition init (s : State) : State :=
  animate (initParticles (setupCanvas s)).

End Basic.

(** ** Variant [TapRipple] ([src/script.js], lines 1-352) *)

Module TapRipple.

Definition setupCanvas (s : State) : State :=
  set_canvas
    {| width := innerWidth (window s);
       height :=
         Qmax (innerHeight (window s)) (Document.scrollHeight (document s)) |}
    s.

(** [createRipple(x, y)]; a margin is minus half the configured size. *)
Definition createRipple (x y : Q) (s : State) : State :=
  let d := document s in
  let sz := CONFIG.ripple_size (CONFIG.ripple (config s)) in
  let ripple :=
    {| RippleNode.node := Document.created d;
       RippleNode.className := "ripple";
       RippleNode.left := x; RippleNode.top := y;
       RippleNode.width := sz; RippleNode.height := sz;
       RippleNode.marginLeft := - (sz / 2);
       RippleNode.marginTop := - (sz / 2) |} in
  let d1 :=
    Document.set_created (S (Document.created d))
      (Document.set_body (Document.body d ++ [ripple]) d) in
  setTimeout (RemoveRipple (RippleNode.node ripple)) 800 (set_document d1 s).

(** The callback of [createRipple]: [ripple.remove()]. *)
Definition remove_ripple (n : nat) (s : State) : State :=
  let d := document s in
  set_document
    (Document.set_body (filter (fun r => RippleNode.node r ≠ n) (Document.body d))
       d) s.

Definition revealMessage (s : State) : State :=
  if isRevealed s then s
  else
    setTimeout RevealTap
      (CONFIG.revealDelay (CONFIG.animation (config s))) (mark_revealed s).

(** The callback of [revealMessage]. *)
Definition reveal_effect (s : State) : State :=
  let s1 := on_message (add_class "revealed") s in
  let s2 := on_subtitle (add_class "revealed") s1 in
  let s3 :=
    if CONFIG.glowOnReveal (CONFIG.particles (config s2)) then
      createParticleBurst (innerWidth (window s2) / 2)
        (innerHeight (window s2) / 2) s2
    else s2 in
  on_container (Element.set_cursor "default") s3.

(** [c || (e.touches && e.touches[0] ? e.touches[0].<c> : fallback)]. *)
Definition coord (c : option Q) (touches : option (list Touch.t))
    (of_touch : Touch.t -> Q) (fallback : Q) : Q :=
  let otherwise :=
    match touches with
    | Some (t0 :: _) => of_touch t0
    | _ => fallback
    end in
  match c with
  | Some v => if truthy v then v else otherwise
  | None => otherwise
  end.

(** The position [handleInteraction] computes for the ripple and the
    burst. *)
Definition position (e : Event.t) (s : State) : Q * Q :=
  (coord (Event.clientX e) (Event.touches e) Touch.clientX
     (innerWidth (window s) / 2),
   coord (Event.clientY e) (Event.touches e) Touch.clientY
     (innerHeight (window s) / 2)).

Definition handleInteraction (e : Event.t) (s : State) : State :=
  let (x, y) := position e s in
  let s1 := createRipple x y s in
  let s2 := createParticleBurst x y s1 in
  if negb (isRevealed s2) then
    let s3 := revealMessage s2 in
    pulse s3
  else s2.

Definition handleKeyPress (e : Event.t) (s : State) : State * bool :=
  if is_reveal_key e then (revealMessage s, true) else (s, false).

Definition handleResize (s : State) : State := setupCanvas s.

Definition handleScroll (s : State) : State :=
  let newHeight :=
    Qmax (innerHeight (window s)) (Document.scrollHeight (document s)) in
  if Qeq_bool (height (canvas s)) newHeight then s
  else set_canvas {| width := width (canvas s); height := newHeight |} s.

Definition triggerReveal (s : State) : State :=
  if negb (isRevealed s) then revealMessage s else s.

Definition init (s : State) : State :=
  console_log "Click/tap anywhere to reveal the message"
    (console_log "Interactive message page initialized"
       (animate (initParticles (setupCanvas s)))).

End TapRipple.

(** ** Running a deferred callback *)

Definition fire (cb : Deferred) (s : State) : State :=
  match cb with
  | RevealTap => TapRipple.reveal_effect s
  | RevealAt e => Cycling.reveal_effect e s
  | RevealCentre => Basic.reveal_effect s
  | FadeIn currentMsg e => Cycling.fade_in currentMsg e s
  | ClearActive => on_container (remove_class "active") s
  | RemoveRipple n => TapRipple.remove_ripple n s
  end.

(** ** What can happen to the page

    The listeners [init] registers, the frame callback, the pending
    timers and the utility calls.  [timeout i] runs the pending callback
    at position [i] of the timer list; the host runs them by due time,
    which is one of the orders this allows. *)

Inductive Input :=
| click (e : Event.t)
| touchstart (e : Event.t)
| keypress (e : Event.t)
| resize (w h : Q)
| scroll (documentHeight : Q)
| frame
| timeout (i : nat)
| call_setMessage (title subtitleText : string)
| call_setParticleColor (c : string)
| call_addParticles (n : nat).

Definition set_viewport (w h : Q) (s : State) : State :=
  set_window
    {| innerWidth := w; innerHeight := h; Telegram := Telegram (window s) |} s.

Definition run_timeout (i : nat) (s : State) : State :=
  match timers s !! i with
  | Some t => fire (callback t) (set_timers (delete i (timers s)) s)
  | None => s
  end.

(** What every variant does with an input that reaches no listener of
    its own. *)
Definition common_step (i : Input) (s : State) : State :=
  match i with
  | frame => animate s
  | timeout k => run_timeout k s
  | call_setMessage t st => setMessage t st s
  | call_setParticleColor c => setParticleColor c s
  | call_addParticles n => addParticles n s
  | _ => s
  end.

Definition Cycling_step (i : Input) (s : State) : State :=
  match i with
  | click e | touchstart e => Cycling.handleInteraction e s
  | keypress e => (Cycling.handleKeyPress e s).1
  | resize w h => Cycling.handleResize (set_viewport w h s)
  | _ => common_step i s
  end.

Definition Basic_step (i : Input) (s : State) : State :=
  match i with
  | click e | touchstart e => Basic.handleInteraction e s
  | keypress e => (Basic.handleKeyPress e s).1
  | resize w h => Basic.handleResize (set_viewport w h s)
  | _ => common_step i s
  end.

Definition TapRipple_step (i : Input) (s : State) : State :=
  match i with
  | click e | touchstart e => TapRipple.handleInteraction e s
  | keypress e => (TapRipple.handleKeyPress e s).1
  | resize w h => TapRipple.handleResize (set_viewport w h s)
  | scroll h =>
      TapRipple.handleScroll
        (set_document (Document.set_scrollHeight h (document s)) s)
  | _ => common_step i s
  end.

(** A run: the inputs in order, from the left. *)
Definition run (step : Input -> State -> State) (inputs : list Input)
    (s : State) : State :=
  foldl (fun acc i => step i acc) s inputs.

(** ** The page as loaded

    The configuration literal of the source (the [ripple] group is
    [TapRipple]'s, the message list is [Cycling]'s and [Basic]'s), and the
    state in which the script starts: nothing revealed, no particle, a
    viewport and a canvas of the given size. *)

Definition default_config : CONFIG.t :=
  CONFIG.mk
    {| CONFIG.count := 50; CONFIG.maxSpeed := 0.5; CONFIG.size := 2;
       CONFIG.color := "rgba(99, 179, 237, 0.6)";
       CONFIG.glowOnReveal := true |}
    {| CONFIG.revealDelay := 100; CONFIG.particleBurstCount := 15 |}
    {| CONFIG.ripple_size := 100; CONFIG.alwaysShow := true |}
    [ Message.mk "Hello, World!" "Welcome to something special";
      Message.mk "Keep Exploring" "There's more to discover";
      Message.mk "Stay Curious" "The journey continues" ]
    (Idx 0).

Definition blank : Element.t :=
  {| Element.classList := []; Element.opacity := ""; Element.cursor := "";
     Element.textContent := "" |}.

Definition page (w h : Q) (g : Supply) : State :=
  {| isRevealed := false;
     particles := [];
     animationId := None;
     config := default_config;
     canvas := {| width := w; height := h |};
     ctx := {| fillStyle := ""; globalAlpha := 1; painted := [] |};
     window := {| innerWidth := w; innerHeight := h; Telegram := None |};
     document :=
       {| Document.container := blank; Document.instruction := blank;
          Document.message := blank; Document.subtitle := blank;
          Document.hint := blank; Document.body := []; Document.created := 0;
          Document.scrollHeight := h |};
     timers := [];
     random := g;
     console := [];
     host := [];
     uncaught := [] |}.

(** A supply for examples: the draws cycle through 0, 1/8, .., 7/8. *)
Definition eighths : Supply := fun n => inject_Z (Z.of_nat (n mod 8)) / 8.

(** Another one: the draws cycle through 1/4, 1/2, 3/4. *)
Definition quarters : Supply :=
  fun n => inject_Z (Z.of_nat (n mod 3 + 1)) / 4.

(** A mouse event at the given client position. *)
Definition mouse (cx cy : Q) : Event.t :=
  {| Event.clientX := Some cx; Event.clientY := Some cy;
     Event.touches := None; Event.key := None |}.

(** A touch event with the given touch points. *)
Definition touch (ts : list Touch.t) : Event.t :=
  {| Event.clientX := None; Event.clientY := None;
     Event.touches := Some ts; Event.key := None |}.

(** A key press. *)
Definition keyboard (k : string) : Event.t :=
  {| Event.clientX := None; Event.clientY := None;
     Event.touches := None; Event.key := Some k |}.

(** An 800 x 600 surface, and a particle on its left edge moving left. *)
Definition surface_800x600 : Canvas := {| width := 800; height := 600 |}.

Definition leftward : Particle.t :=
  {| Particle.x := 0; Particle.y := 300; Particle.size := 2;
     Particle.speedX := -0.25; Particle.speedY := 0;
     Particle.opacity := 0.5; Particle.life := 1; Particle.decay := 0 |}.

(** ** Predicates of the statements *)

(** What the constructor promises of an ambient particle. *)
Definition ambient_on (cv : Canvas) (cfg : CONFIG.Particles)
    (p : Particle.t) : Prop :=
  (0 <= Particle.x p < width cv) /\
  (0 <= Particle.y p < height cv) /\
  Particle.size p = CONFIG.size cfg /\
  (- (CONFIG.maxSpeed cfg / 2) <= Particle.speedX p <= CONFIG.maxSpeed cfg / 2) /\
  (- (CONFIG.maxSpeed cfg / 2) <= Particle.speedY p <= CONFIG.maxSpeed cfg / 2) /\
  (0.3 <= Particle.opacity p <= 0.8) /\
  Particle.life p = 1 /\
  Particle.decay p = 0.

(** What the constructor promises of a burst particle at [(x0, y0)]. *)
Definition burst_at (x0 y0 : Q) (p : Particle.t) : Prop :=
  Particle.x p = x0 /\
  Particle.y p = y0 /\
  (1 <= Particle.size p <= 4) /\
  (-1 <= Particle.speedX p <= 1) /\
  (-1 <= Particle.speedY p <= 1) /\
  Particle.opacity p = 1 /\
  Particle.life p = 1 /\
  Particle.decay p = 0.02.

(** An event with no touch point: [touches] is undefined or empty. *)
Definition no_touch (ev : Event.t) : Prop :=
  Event.touches ev = None \/ Event.touches ev = Some [].

(** An event without pointer coordinates: a client coordinate is
    undefined. *)
Definition no_pointer (ev : Event.t) : Prop :=
  Event.clientX ev = None \/ Event.clientY ev = None.

(** The host API object is absent. *)
Definition host_absent (s : State) : Prop :=
  Telegram (window s) = None \/
  exists telegram,
    Telegram (window s) = Some telegram /\ WebApp_ telegram = None.

(** The title and the subtitle on display. *)
Definition shown (s : State) : Message.t :=
  Message.mk (Element.textContent (Document.message (document s)))
    (Element.textContent (Document.subtitle (document s))).

(** Reveal triggers of [Cycling] in a row, one per event. *)
Definition triggers (es : list (option Event.t)) (s : State) : State :=
  foldl (fun acc e => Cycling.revealMessage e acc) s es.

(** [n] frames in a row. *)
Definition frames (n : nat) (s : State) : State :=
  Nat.iter n animate s.

(** One pass of [forEach] over the particles, read off the array from
    left to right: a particle whose life runs out is dropped, and the
    particle that slides into its place is passed over, neither updated
    nor drawn in this pass. *)
Fixpoint sweep (cv : Canvas) (ps : list Particle.t) : list Particle.t :=
  match ps with
  | [] => []
  | p :: rest =>
      if Qle_bool (Particle.life (Particle.update cv p)) 0 then
        match rest with
        | [] => []
        | q :: rest' => q :: sweep cv rest'
        end
      else Particle.update cv p :: sweep cv rest
  end.

(** A particle that never decays and is alive. *)
Definition ambient (p : Particle.t) : bool :=
  negb (gtb (Particle.decay p) 0) && ltb 0 (Particle.life p).

(** A particle on the closed surface. *)
Definition inside (cv : Canvas) (p : Particle.t) : Prop :=
  (0 <= Particle.x p <= width cv) /\ (0 <= Particle.y p <= height cv).

(** The disc [draw] paints for a particle. *)
Definition disc_of (fillColor : string) (p : Particle.t) : Disc :=
  {| cx := Particle.x p; cy := Particle.y p; radius := Particle.size p;
     alpha := Particle.opacity p; fill := fillColor |}.

(** The particles one pass of [forEach] calls its callback on, as they
    are after their update, in the order of the calls. *)
Fixpoint visited (cv : Canvas) (ps : list Particle.t) : list Particle.t :=
  match ps with
  | [] => []
  | p :: rest =>
      Particle.update cv p ::
      (if Qle_bool (Particle.life (Particle.update cv p)) 0 then
         match rest with
         | [] => []
         | _ :: rest' => visited cv rest'
         end
       else visited cv rest)
  end.

(** A particle whose life has run out, and one whose life has not. *)
Definition dead (p : Particle.t) : bool := Qle_bool (Particle.life p) 0.

Definition alive (p : Particle.t) : Prop := 0 < Particle.life p.

(** The callbacks of the three [revealMessage]s. *)
Definition is_reveal (cb : Deferred) : bool :=
  match cb with
  | RevealTap | RevealAt _ | RevealCentre => true
  | _ => false
  end.

(** How many reveal callbacks are pending. *)
Definition pending_reveals (s : State) : nat :=
  length (filter (fun t => is_reveal (callback t) = true) (timers s)).

(** Every ripple in the body was created by [createRipple] before now. *)
Definition fresh_nodes (s : State) : Prop :=
  Forall (fun r => (RippleNode.node r < Document.created (document s))%nat)
    (Document.body (document s)).

(** [k] updates of one particle. *)
Definition updates (cv : Canvas) (k : nat) (p : Particle.t) : Particle.t :=
  Nat.iter k (Particle.update cv) p.

(** A burst particle one update away from the end of its life. *)
Definition dying : Particle.t :=
  {| Particle.x := 400; Particle.y := 300; Particle.size := 2;
     Particle.speedX := 0.5; Particle.speedY := -0.5;
     Particle.opacity := 0.02; Particle.life := 0.02;
     Particle.decay := 0.02 |}.

(** The instruction and the hint both carry the class [hidden]. *)
Definition hidden_prompt (s : State) : Prop :=
  "hidden" ∈ Element.classList (Document.instruction (document s)) /\
  "hidden" ∈ Element.classList (Document.hint (document s)).

(** The instruction and the hint after a step are the ones before it, or
    the ones before it with a class added. *)
Definition prompt_grows (s s' : State) : Prop :=
  (Document.instruction (document s') = Document.instruction (document s) \/
   Document.instruction (document s') =
     add_class "hidden" (Document.instruction (document s))) /\
  (Document.hint (document s') = Document.hint (document s) \/
   Document.hint (document s') =
     add_class "hidden" (Document.hint (document s))).

(** [s'] is [s] after one burst at [(x0, y0)]. *)
Definition burst_added (x0 y0 : Q) (s s' : State) : Prop :=
  exists added,
    particles s' = particles s ++ added /\
    length added =
      CONFIG.particleBurstCount (CONFIG.animation (config s)) /\
    Forall (burst_at x0 y0) added.

(** The title and the subtitle both carry the class [revealed]. *)
Definition shown_revealed (s : State) : Prop :=
  "revealed" ∈ Element.classList (Document.message (document s)) /\
  "revealed" ∈ Element.classList (Document.subtitle (document s)).

(** The ambient particle [new Particle()] builds from the five draws
    [5 k .. 5 k + 4] of a supply: the draws of particle [k] of a fresh
    field. *)
Definition nth_ambient (cv : Canvas) (cfg : CONFIG.Particles) (g : Supply)
    (k : nat) : Particle.t :=
  {| Particle.x := g (5 * k)%nat * width cv;
     Particle.y := g (5 * k + 1)%nat * height cv;
     Particle.size := CONFIG.size cfg;
     Particle.speedX := (g (5 * k + 2)%nat - 0.5) * CONFIG.maxSpeed cfg;
     Particle.speedY := (g (5 * k + 3)%nat - 0.5) * CONFIG.maxSpeed cfg;
     Particle.opacity := g (5 * k + 4)%nat * 0.5 + 0.3;
     Particle.life := 1;
     Particle.decay := 0 |}.

(** ** The decay countdown in binary64

    [life -= 0.02] from [1], as IEEE-754 double precision computes it. *)

Module Binary64.

Fixpoint life_after (frames : nat) (life : float) : float :=
  match frames with
  | O => life
  | S k => life_after k (PrimFloat.sub life 0x1.47ae147ae147bp-6%float)
  end.

End Binary64.

(** * Properties *)

(** ** Comparisons and truthiness *)

Lemma ltb_true a b : ltb a b = true <-> a < b.
Proof.
  unfold ltb. rewrite negb_true_iff, <- not_true_iff_false, Qle_bool_iff.
  split; [apply Qnot_le_lt | apply Qlt_not_le].
Qed.

Lemma ltb_false a b : ltb a b = false <-> b <= a.
Proof. unfold ltb. rewrite negb_false_iff. apply Qle_bool_iff. Qed.

Lemma truthy_true a : truthy a = true <-> ~ a == 0.
Proof.
  unfold truthy. rewrite negb_true_iff, <- not_true_iff_false, Qeq_bool_iff.
  reflexivity.
Qed.

Lemma truthy_false a : truthy a = false <-> a == 0.
Proof. unfold truthy. rewrite negb_false_iff. apply Qeq_bool_iff. Qed.

(** Halving is a product by one half, which linear arithmetic accepts. *)
Ltac halves := unfold Qdiv; change (/ 2) with (1 # 2); lra.

(** ** Wrapping at the edges *)

Section Wrap.

Variable bound : Q.
Hypothesis bound_nonneg : 0 <= bound.

Lemma wrap_above c : bound < c -> Particle.wrap bound c = 0.
Proof.
  intros Hc. unfold Particle.wrap, gtb.
  apply ltb_true in Hc as ->.
  destruct (ltb 0 0) eqn:E; [apply ltb_true in E; lra | reflexivity].
Qed.

Lemma wrap_below c : c < 0 -> Particle.wrap bound c = bound.
Proof.
  intros Hc. unfold Particle.wrap, gtb.
  destruct (ltb bound c) eqn:E; [apply ltb_true in E; lra |].
  apply ltb_true in Hc as ->. reflexivity.
Qed.

Lemma wrap_inside c : 0 <= c <= bound -> Particle.wrap bound c = c.
Proof.
  intros Hc. unfold Particle.wrap, gtb.
  destruct (ltb bound c) eqn:E; [apply ltb_true in E; lra |].
  destruct (ltb c 0) eqn:E'; [apply ltb_true in E'; lra | reflexivity].
Qed.

Lemma wrap_range c : 0 <= Particle.wrap bound c <= bound.
Proof.
  destruct (Qlt_le_dec bound c) as [Ha | Ha].
  - rewrite wrap_above by assumption. lra.
  - destruct (Qlt_le_dec c 0) as [Hb | Hb].
    + rewrite wrap_below by assumption. lra.
    + rewrite wrap_inside by lra. lra.
Qed.

End Wrap.

(** C1, as stated, fails: a particle that leaves through the left edge is
    put at [x = canvas.width] itself, which is outside the half-open
    interval [[0, width)]. *)
Lemma update_reaches_the_upper_bound :
  Particle.x (Particle.update surface_800x600 leftward) = 800 /\
  ~ (0 <= Particle.x (Particle.update surface_800x600 leftward)
       < width surface_800x600).
Proof.
  split; [reflexivity |].
  vm_compute. intros [_ H]. discriminate H.
Qed.

(** C1 (amended): after [update], on a surface whose sides are not
    negative, both position components lie in the closed intervals
    [[0, width]] and [[0, height]]; on each axis independently a
    coordinate that exceeds the upper bound becomes [0], one that drops
    below [0] becomes the upper bound, and one inside is the advanced
    coordinate. *)
Theorem update_wraps_into_closed_surface (cv : Canvas) (p : Particle.t) :
  0 <= width cv -> 0 <= height cv ->
  let p' := Particle.update cv p in
  let x1 := Particle.x p + Particle.speedX p in
  let y1 := Particle.y p + Particle.speedY p in
  (0 <= Particle.x p' <= width cv /\ 0 <= Particle.y p' <= height cv) /\
  (width cv < x1 -> Particle.x p' = 0) /\
  (x1 < 0 -> Particle.x p' = width cv) /\
  (0 <= x1 <= width cv -> Particle.x p' = x1) /\
  (height cv < y1 -> Particle.y p' = 0) /\
  (y1 < 0 -> Particle.y p' = height cv) /\
  (0 <= y1 <= height cv -> Particle.y p' = y1).
Proof.
  intros Hw Hh. cbn zeta. unfold Particle.update. cbn [Particle.x Particle.y].
  repeat split;
    try (apply wrap_range; assumption);
    try (intros; apply wrap_above; assumption);
    try (intros; apply wrap_below; assumption);
    try (intros; apply wrap_inside; assumption).
Qed.

Lemma update_wraps_into_closed_surface_witness :
  let p' := Particle.update surface_800x600 leftward in
  (0 <= Particle.x p' <= 800 /\ 0 <= Particle.y p' <= 600) /\
  Particle.x p' = 800.
Proof.
  assert (Hw : 0 <= width surface_800x600) by (vm_compute; discriminate).
  assert (Hh : 0 <= height surface_800x600) by (vm_compute; discriminate).
  pose proof (update_wraps_into_closed_surface surface_800x600 leftward Hw Hh)
    as (Hin & _ & Hlow & _).
  split; [exact Hin |].
  apply Hlow. vm_compute. reflexivity.
Defined.

(** ** Construction of particles *)

Lemma unit_supply_skip k g : unit_supply g -> unit_supply (skip k g).
Proof. intros Hg n. apply Hg. Qed.

(** [new Particle()]: five draws, in the order x, y, speedX, speedY,
    opacity. *)
Lemma constructor_ambient cv cfg g :
  Particle.constructor cv cfg None None false g =
  ({| Particle.x := g 0%nat * width cv;
      Particle.y := g 1%nat * height cv;
      Particle.size := CONFIG.size cfg;
      Particle.speedX := (g 2%nat - 0.5) * CONFIG.maxSpeed cfg;
      Particle.speedY := (g 3%nat - 0.5) * CONFIG.maxSpeed cfg;
      Particle.opacity := g 4%nat * 0.5 + 0.3;
      Particle.life := 1;
      Particle.decay := 0 |}, skip 5 g).
Proof. reflexivity. Qed.

(** [new Particle(x, y, true)] with both coordinates truthy: three draws,
    in the order size, speedX, speedY. *)
Lemma constructor_burst cv cfg x0 y0 g :
  truthy x0 = true -> truthy y0 = true ->
  Particle.constructor cv cfg (Some x0) (Some y0) true g =
  ({| Particle.x := x0;
      Particle.y := y0;
      Particle.size := g 0%nat * 3 + 1;
      Particle.speedX := (g 1%nat - 0.5) * 2;
      Particle.speedY := (g 2%nat - 0.5) * 2;
      Particle.opacity := 1;
      Particle.life := 1;
      Particle.decay := 0.02 |}, skip 3 g).
Proof.
  intros Hx Hy. unfold Particle.constructor, bind, or_else.
  rewrite Hx, Hy. reflexivity.
Qed.

Lemma constructor_ambient_on cv cfg g :
  0 < width cv -> 0 < height cv -> 0 <= CONFIG.maxSpeed cfg ->
  unit_supply g ->
  ambient_on cv cfg (Particle.constructor cv cfg None None false g).1 /\
  unit_supply (Particle.constructor cv cfg None None false g).2.
Proof.
  intros Hw Hh Hm Hg. rewrite constructor_ambient. cbn [fst snd].
  split; [| apply unit_supply_skip, Hg].
  pose proof (Hg 0%nat). pose proof (Hg 1%nat). pose proof (Hg 2%nat).
  pose proof (Hg 3%nat). pose proof (Hg 4%nat).
  unfold ambient_on; cbn.
  set (m := CONFIG.maxSpeed cfg) in *.
  assert (0 <= g 2%nat * m <= m) by nra.
  assert (0 <= g 3%nat * m <= m) by nra.
  repeat split; try halves; nra.
Qed.

Lemma constructor_burst_at cv cfg x0 y0 g :
  truthy x0 = true -> truthy y0 = true -> unit_supply g ->
  burst_at x0 y0 (Particle.constructor cv cfg (Some x0) (Some y0) true g).1 /\
  unit_supply (Particle.constructor cv cfg (Some x0) (Some y0) true g).2.
Proof.
  intros Hx Hy Hg. rewrite constructor_burst by assumption. cbn [fst snd].
  split; [| apply unit_supply_skip, Hg].
  pose proof (Hg 0%nat). pose proof (Hg 1%nat). pose proof (Hg 2%nat).
  unfold burst_at; cbn.
  repeat split; lra.
Qed.

(** The push loop appends exactly [n] particles and leaves the ones
    already in the array where they were. *)
Lemma push_loop_appends (P : Particle.t -> Prop) new :
  (forall g, unit_supply g -> P (new g).1 /\ unit_supply (new g).2) ->
  forall n ps g, unit_supply g ->
  exists added,
    (push_loop n new ps g).1 = ps ++ added /\
    length added = n /\
    Forall P added /\
    unit_supply (push_loop n new ps g).2.
Proof.
  intros Hnew. induction n as [| n IH]; intros ps g Hg; cbn [push_loop].
  - exists []. rewrite app_nil_r.
    split; [reflexivity | split; [reflexivity | split; [constructor | exact Hg]]].
  - destruct (Hnew g Hg) as [Hp Hg']. destruct (new g) as [p g'].
    cbn [fst snd] in Hp, Hg'.
    destruct (IH (ps ++ [p]) g' Hg') as (added & Heq & Hlen & Hall & Hsup).
    exists (p :: added). rewrite Heq, <- app_assoc. cbn [app length].
    split; [reflexivity | split; [congruence | split]];
      [constructor; assumption | exact Hsup].
Qed.

Lemma particles_initParticles s :
  particles (initParticles s) =
  (push_loop (CONFIG.count (CONFIG.particles (config s)))
     (Particle.constructor (canvas s) (CONFIG.particles (config s))
        None None false) [] (random s)).1.
Proof. unfold initParticles. destruct (push_loop _ _ _ _). reflexivity. Qed.

Lemma particles_createParticleBurst x0 y0 s :
  particles (createParticleBurst x0 y0 s) =
  (push_loop (CONFIG.particleBurstCount (CONFIG.animation (config s)))
     (Particle.constructor (canvas s) (CONFIG.particles (config s))
        (Some x0) (Some y0) true) (particles s) (random s)).1.
Proof. unfold createParticleBurst. destruct (push_loop _ _ _ _). reflexivity. Qed.

Lemma nth_ambient_shift cv cfg g k :
  nth_ambient cv cfg (skip 5 g) k = nth_ambient cv cfg g (S k).
Proof.
  unfold nth_ambient, skip.
  replace (5 + 5 * k)%nat with (5 * S k)%nat by lia.
  replace (5 + (5 * k + 1))%nat with (5 * S k + 1)%nat by lia.
  replace (5 + (5 * k + 2))%nat with (5 * S k + 2)%nat by lia.
  replace (5 + (5 * k + 3))%nat with (5 * S k + 3)%nat by lia.
  replace (5 + (5 * k + 4))%nat with (5 * S k + 4)%nat by lia.
  reflexivity.
Qed.

(** The push loop of [initParticles] and [addParticles], draw by draw:
    particle [k] of the ones it appends is made of the draws
    [5 k .. 5 k + 4], and [5 n] draws are used up. *)
Lemma push_loop_ambient cv cfg n : forall ps g,
  (push_loop n (Particle.constructor cv cfg None None false) ps g).1 =
    ps ++ map (nth_ambient cv cfg g) (seq 0 n) /\
  (forall m,
     (push_loop n (Particle.constructor cv cfg None None false) ps g).2 m =
     g (5 * n + m)%nat).
Proof.
  induction n as [| n IH]; intros ps g; cbn [push_loop].
  - cbn. rewrite app_nil_r. split; reflexivity.
  - rewrite constructor_ambient.
    destruct (IH (ps ++ [nth_ambient cv cfg g 0]) (skip 5 g)) as [Hps Hg].
    change (Particle.mk (g 0%nat * width cv) (g 1%nat * height cv)
              (CONFIG.size cfg) ((g 2%nat - 0.5) * CONFIG.maxSpeed cfg)
              ((g 3%nat - 0.5) * CONFIG.maxSpeed cfg)
              (g 4%nat * 0.5 + 0.3) 1 0)
      with (nth_ambient cv cfg g 0).
    split.
    + rewrite Hps, <- app_assoc. cbn [app seq map]. do 2 f_equal.
      rewrite <- fmap_S_seq, <- list_fmap_compose.
      apply list_fmap_ext. intros i k _. apply nth_ambient_shift.
    + intros m. rewrite Hg. unfold skip. f_equal. lia.
Qed.

Lemma random_initParticles s :
  random (initParticles s) =
  (push_loop (CONFIG.count (CONFIG.particles (config s)))
     (Particle.constructor (canvas s) (CONFIG.particles (config s))
        None None false) [] (random s)).2.
Proof. unfold initParticles. destruct (push_loop _ _ _ _). reflexivity. Qed.

(** C7: [initParticles] replaces the collection, whatever it held, with
    exactly [CONFIG.particles.count] new particles, each made of five
    fresh draws of [Math.random()]: particle [k] has [x] = draw [5 k]
    times the width, [y] = draw [5 k + 1] times the height, speed
    components (draw [5 k + 2] - 0.5) and (draw [5 k + 3] - 0.5) times
    [maxSpeed], opacity draw [5 k + 4] times 0.5 plus 0.3, and the
    generator is left [5 count] draws further.  On a surface with
    positive sides, and with a speed limit that is not negative, each of
    them therefore has [0 <= x < width], [0 <= y < height], the
    configured size, speed components in [[-maxSpeed/2, maxSpeed/2]],
    opacity in [[0.3, 0.8]], life 1 and no decay. *)
Theorem initParticles_spec (s : State) :
  unit_supply (random s) ->
  0 < width (canvas s) -> 0 < height (canvas s) ->
  0 <= CONFIG.maxSpeed (CONFIG.particles (config s)) ->
  length (particles (initParticles s)) =
    CONFIG.count (CONFIG.particles (config s)) /\
  Forall (ambient_on (canvas s) (CONFIG.particles (config s)))
    (particles (initParticles s)) /\
  (forall old, particles (initParticles (set_particles old s)) =
               particles (initParticles s)) /\
  particles (initParticles s) =
    map (nth_ambient (canvas s) (CONFIG.particles (config s)) (random s))
      (seq 0 (CONFIG.count (CONFIG.particles (config s)))) /\
  (forall m,
     random (initParticles s) m =
     random s (5 * CONFIG.count (CONFIG.particles (config s)) + m)%nat).
Proof.
  intros Hg Hw Hh Hm.
  destruct (push_loop_appends
              (ambient_on (canvas s) (CONFIG.particles (config s)))
              (Particle.constructor (canvas s) (CONFIG.particles (config s))
                 None None false)
              (fun g Hg' => constructor_ambient_on _ _ g Hw Hh Hm Hg')
              (CONFIG.count (CONFIG.particles (config s))) [] (random s) Hg)
    as (added & Heq & Hlen & Hall & _).
  destruct (push_loop_ambient (canvas s) (CONFIG.particles (config s))
              (CONFIG.count (CONFIG.particles (config s))) [] (random s))
    as [Hdraws Hleft].
  split; [| split; [| split; [| split]]].
  - rewrite particles_initParticles, Heq. exact Hlen.
  - rewrite particles_initParticles, Heq. exact Hall.
  - intros old. rewrite !particles_initParticles. reflexivity.
  - rewrite particles_initParticles. exact Hdraws.
  - intros m. rewrite random_initParticles. apply Hleft.
Qed.

Lemma unit_supply_eighths : unit_supply eighths.
Proof.
  intros n. unfold eighths.
  pose proof (Nat.mod_upper_bound n 8 ltac:(lia)) as Hn.
  unfold Qle, Qlt, Qdiv, Qmult, Qinv, inject_Z; cbn. lia.
Qed.

Lemma unit_supply_quarters : unit_supply quarters.
Proof.
  intros n. unfold quarters.
  pose proof (Nat.mod_upper_bound n 3 ltac:(lia)) as Hn.
  unfold Qle, Qlt, Qdiv, Qmult, Qinv, inject_Z; cbn. lia.
Qed.

Lemma initParticles_spec_witness :
  let s := page 800 600 eighths in
  length (particles (initParticles s)) = 50%nat /\
  Forall (ambient_on surface_800x600 (CONFIG.particles default_config))
    (particles (initParticles s)) /\
  particles (initParticles s) !! 1%nat =
    Some (nth_ambient surface_800x600 (CONFIG.particles default_config)
            eighths 1) /\
  random (initParticles s) 0%nat = eighths 250%nat.
Proof.
  intros s.
  assert (Hw : 0 < width (canvas s)) by reflexivity.
  assert (Hh : 0 < height (canvas s)) by reflexivity.
  assert (Hm : 0 <= CONFIG.maxSpeed (CONFIG.particles (config s)))
    by (vm_compute; discriminate).
  pose proof (initParticles_spec s unit_supply_eighths Hw Hh Hm)
    as (Hlen & Hall & _ & Hdraws & Hleft).
  split; [exact Hlen | split; [exact Hall | split]].
  - rewrite Hdraws. reflexivity.
  - apply (Hleft 0%nat).
Defined.

(** ** Bursts *)

(** Away from the axes a burst is what the call sites expect: the
    configured number of particles is appended, all at the origin given,
    and the particles already in the array stay as they were. *)
Lemma createParticleBurst_appends (x0 y0 : Q) (s : State) :
  unit_supply (random s) -> ~ x0 == 0 -> ~ y0 == 0 ->
  exists added,
    particles (createParticleBurst x0 y0 s) = particles s ++ added /\
    length added =
      CONFIG.particleBurstCount (CONFIG.animation (config s)) /\
    Forall (burst_at x0 y0) added.
Proof.
  intros Hg Hx Hy.
  apply truthy_true in Hx, Hy.
  destruct (push_loop_appends (burst_at x0 y0)
              (Particle.constructor (canvas s) (CONFIG.particles (config s))
                 (Some x0) (Some y0) true)
              (fun g Hg' => constructor_burst_at _ _ x0 y0 g Hx Hy Hg')
              (CONFIG.particleBurstCount (CONFIG.animation (config s)))
              (particles s) (random s) Hg)
    as (added & Heq & Hlen & Hall & _).
  exists added. rewrite particles_createParticleBurst.
  split; [exact Heq | split; [exact Hlen | exact Hall]].
Qed.

(** C4, at an origin on the left edge: the constructor takes [x = 0] for
    a missing argument and draws a position across the surface, so the 15
    particles of [createParticleBurst(0, 300)] on the 800 x 600 page are
    not at [x = 0]: they are scattered over x = 200, 400, 600. *)
Theorem burst_on_left_edge_is_scattered :
  map (fun p => (Qred (Particle.x p), Qred (Particle.y p)))
    (particles (createParticleBurst 0 300 (page 800 600 quarters))) =
  [ (200, 300); (400, 300); (600, 300); (200, 300); (400, 300);
    (600, 300); (200, 300); (400, 300); (600, 300); (200, 300);
    (400, 300); (600, 300); (200, 300); (400, 300); (600, 300) ].
Proof. vm_compute. reflexivity. Qed.

(** ** Coordinates of an interaction *)

(** C6: [getEventCoords] returns a pair of coordinates and nothing else,
    and the pair is determined by the event and the size of the canvas.
    The first touch point wins; without one, the client coordinates of
    the pointer; with neither (or with no event at all) the centre of the
    canvas, [(width / 2, height / 2)]. *)
Theorem getEventCoords_resolution :
  (forall e s s', canvas s = canvas s' ->
     Cycling.getEventCoords e s = Cycling.getEventCoords e s') /\
  (forall ev t0 rest s, Event.touches ev = Some (t0 :: rest) ->
     Cycling.getEventCoords (Some ev) s =
     (Touch.clientX t0, Touch.clientY t0)) /\
  (forall ev cx cy s, no_touch ev ->
     Event.clientX ev = Some cx -> Event.clientY ev = Some cy ->
     Cycling.getEventCoords (Some ev) s = (cx, cy)) /\
  (forall ev s, no_touch ev -> no_pointer ev ->
     Cycling.getEventCoords (Some ev) s =
     (width (canvas s) / 2, height (canvas s) / 2)) /\
  (forall s, Cycling.getEventCoords None s =
     (width (canvas s) / 2, height (canvas s) / 2)).
Proof.
  unfold Cycling.getEventCoords, no_touch, no_pointer.
  split; [| split; [| split; [| split]]].
  - intros e s s' ->. reflexivity.
  - intros ev t0 rest s ->. reflexivity.
  - intros ev cx cy s [-> | ->] -> ->; reflexivity.
  - intros ev s [-> | ->] [-> | ->]; try reflexivity;
      destruct (Event.clientX ev); reflexivity.
  - reflexivity.
Qed.

Lemma getEventCoords_resolution_witness :
  Cycling.getEventCoords
    (Some (touch [Touch.mk 10 20; Touch.mk 30 40])) (page 800 600 eighths) =
    (10, 20) /\
  Cycling.getEventCoords (Some (mouse 0 599)) (page 800 600 eighths) =
    (0, 599) /\
  Cycling.getEventCoords (Some (keyboard "Enter")) (page 800 600 eighths) =
    (800 / 2, 600 / 2).
Proof.
  destruct getEventCoords_resolution as (_ & Htouch & Hmouse & Hnone & _).
  split; [| split].
  - apply (Htouch _ (Touch.mk 10 20) [Touch.mk 30 40]). reflexivity.
  - apply Hmouse; [left |  |]; reflexivity.
  - apply (Hnone (keyboard "Enter") (page 800 600 eighths));
      left; reflexivity.
Defined.

(** ** The host integration *)

(** C8: without the host API object ([window.Telegram] undefined, or
    without a [WebApp]) [initTelegramWebApp] completes normally in the
    state it started from: nothing is changed, no host method is called,
    nothing is thrown. *)
Theorem initTelegramWebApp_absent (s : State) :
  host_absent s -> initTelegramWebApp s = Normal s.
Proof.
  unfold initTelegramWebApp.
  intros [-> | (telegram & -> & ->)]; reflexivity.
Qed.

Lemma initTelegramWebApp_absent_witness :
  initTelegramWebApp (page 800 600 eighths) = Normal (page 800 600 eighths).
Proof. apply initTelegramWebApp_absent. left. reflexivity. Defined.

(** ** Key presses *)

Lemma is_reveal_key_false ev :
  Event.key ev <> Some " " -> Event.key ev <> Some "Enter" ->
  is_reveal_key ev = false.
Proof.
  intros Hspace Henter. unfold is_reveal_key.
  destruct (Event.key ev) as [k |]; [| reflexivity].
  rewrite !bool_decide_eq_false_2; [reflexivity | |]; congruence.
Qed.

(** C10: a key press whose key is neither the space nor ['Enter'] leaves
    the whole state as it was, in each of the three variants, and the
    default action of the event is not prevented. *)
Theorem other_keys_change_nothing (ev : Event.t) (s : State) :
  Event.key ev <> Some " " -> Event.key ev <> Some "Enter" ->
  TapRipple.handleKeyPress ev s = (s, false) /\
  Basic.handleKeyPress ev s = (s, false) /\
  Cycling.handleKeyPress ev s = (s, false).
Proof.
  intros Hspace Henter.
  unfold TapRipple.handleKeyPress, Basic.handleKeyPress,
    Cycling.handleKeyPress.
  rewrite (is_reveal_key_false ev Hspace Henter). repeat split.
Qed.

Lemma other_keys_change_nothing_witness :
  TapRipple.handleKeyPress (keyboard "a") (page 800 600 eighths) =
    (page 800 600 eighths, false) /\
  Basic.handleKeyPress (keyboard "a") (page 800 600 eighths) =
    (page 800 600 eighths, false) /\
  Cycling.handleKeyPress (keyboard "a") (page 800 600 eighths) =
    (page 800 600 eighths, false).
Proof.
  apply (other_keys_change_nothing (keyboard "a") (page 800 600 eighths));
    discriminate.
Defined.

(** ** The tap position of [TapRipple] *)

Lemma coord_zero c touches of_touch fallback :
  (touches = None \/ touches = Some []) -> c == 0 ->
  TapRipple.coord (Some c) touches of_touch fallback = fallback.
Proof.
  intros Ht Hc. unfold TapRipple.coord.
  apply truthy_false in Hc as ->.
  destruct Ht as [-> | ->]; reflexivity.
Qed.

(** The particles after [handleInteraction] are those after the burst at
    the computed position: the ripple, the reveal and the pulse do not
    touch the array. *)
Lemma particles_TapRipple_handleInteraction ev s :
  particles (TapRipple.handleInteraction ev s) =
  particles
    (createParticleBurst (TapRipple.position ev s).1
       (TapRipple.position ev s).2
       (TapRipple.createRipple (TapRipple.position ev s).1
          (TapRipple.position ev s).2 s)).
Proof.
  unfold TapRipple.handleInteraction.
  destruct (TapRipple.position ev s) as [x y]. cbn [fst snd].
  set (s2 := createParticleBurst x y _).
  destruct (isRevealed s2) eqn:E; cbn [negb]; [reflexivity |].
  unfold TapRipple.revealMessage. rewrite E. reflexivity.
Qed.

(** C9: in [TapRipple.handleInteraction], for an event without touch
    points, a client coordinate equal to 0 is replaced by the centre of
    the viewport on that axis ([window.innerWidth / 2], respectively
    [window.innerHeight / 2]); and the burst of the interaction is made at
    the position so computed, so a click on the left or top edge bursts
    at the centre on that axis. *)
Theorem zero_client_coordinate_resolves_to_centre (ev : Event.t) (s : State) :
  no_touch ev ->
  (forall v, Event.clientX ev = Some v -> v == 0 ->
     (TapRipple.position ev s).1 = innerWidth (window s) / 2) /\
  (forall v, Event.clientY ev = Some v -> v == 0 ->
     (TapRipple.position ev s).2 = innerHeight (window s) / 2) /\
  (unit_supply (random s) ->
   ~ (TapRipple.position ev s).1 == 0 ->
   ~ (TapRipple.position ev s).2 == 0 ->
   exists added,
     particles (TapRipple.handleInteraction ev s) = particles s ++ added /\
     length added =
       CONFIG.particleBurstCount (CONFIG.animation (config s)) /\
     Forall (burst_at (TapRipple.position ev s).1 (TapRipple.position ev s).2)
       added).
Proof.
  intros Ht. split; [| split].
  - intros v Hv Hz. unfold TapRipple.position. cbn [fst]. rewrite Hv.
    apply coord_zero; assumption.
  - intros v Hv Hz. unfold TapRipple.position. cbn [snd]. rewrite Hv.
    apply coord_zero; assumption.
  - intros Hg Hx Hy. rewrite particles_TapRipple_handleInteraction.
    apply (createParticleBurst_appends _ _
             (TapRipple.createRipple (TapRipple.position ev s).1
                (TapRipple.position ev s).2 s)); assumption.
Qed.

Lemma zero_client_coordinate_resolves_to_centre_witness :
  let s := page 800 600 eighths in
  (TapRipple.position (mouse 0 300) s).1 = 800 / 2 /\
  (TapRipple.position (mouse 250 0) s).2 = 600 / 2 /\
  exists added,
    particles (TapRipple.handleInteraction (mouse 0 300) s) = added /\
    length added = 15%nat /\
    Forall (burst_at (800 / 2) 300) added.
Proof.
  intros s.
  assert (Ht : forall cx cy, no_touch (mouse cx cy)) by (left; reflexivity).
  split; [| split].
  - destruct (zero_client_coordinate_resolves_to_centre (mouse 0 300) s
                (Ht _ _)) as (Hx & _ & _).
    apply (Hx 0); reflexivity.
  - destruct (zero_client_coordinate_resolves_to_centre (mouse 250 0) s
                (Ht _ _)) as (_ & Hy & _).
    apply (Hy 0); reflexivity.
  - destruct (zero_client_coordinate_resolves_to_centre (mouse 0 300) s
                (Ht _ _)) as (_ & _ & Hburst).
    destruct Hburst as (added & Heq & Hlen & Hall).
    + exact unit_supply_eighths.
    + vm_compute. discriminate.
    + vm_compute. discriminate.
    + exists added. split; [exact Heq | split; [exact Hlen | exact Hall]].
Defined.

(** ** What the particle system leaves alone *)

(** Case analysis on whatever a goal still branches on. *)
Ltac branches :=
  repeat match goal with
  | |- context [let (_, _) := ?e in _] => destruct e
  | |- context [if ?b then _ else _] => destruct b
  | |- context [match ?x with _ => _ end] => destruct x
  end.

Lemma createParticleBurst_frame x0 y0 s :
  let s' := createParticleBurst x0 y0 s in
  isRevealed s' = isRevealed s /\ config s' = config s /\
  document s' = document s /\ timers s' = timers s /\
  canvas s' = canvas s /\ window s' = window s.
Proof.
  unfold createParticleBurst. destruct (push_loop _ _ _ _).
  repeat split.
Qed.

Lemma isRevealed_createParticleBurst x0 y0 s :
  isRevealed (createParticleBurst x0 y0 s) = isRevealed s.
Proof. apply createParticleBurst_frame. Qed.

Lemma isRevealed_initParticles s :
  isRevealed (initParticles s) = isRevealed s.
Proof. unfold initParticles. destruct (push_loop _ _ _ _). reflexivity. Qed.

Lemma isRevealed_addParticles n s :
  isRevealed (addParticles n s) = isRevealed s.
Proof. unfold addParticles. destruct (push_loop _ _ _ _). reflexivity. Qed.

Lemma isRevealed_animate s : isRevealed (animate s) = isRevealed s.
Proof. unfold animate. destruct (forEach _ _ _). reflexivity. Qed.

(** No deferred callback touches the flag. *)
Lemma isRevealed_fire cb s : isRevealed (fire cb s) = isRevealed s.
Proof.
  destruct cb as [| e | | [m |] e | | n]; cbn [fire];
    unfold TapRipple.reveal_effect, Cycling.reveal_effect,
      Basic.reveal_effect, Cycling.fade_in;
    branches; cbn -[createParticleBurst];
    rewrite ?isRevealed_createParticleBurst; reflexivity.
Qed.

Lemma isRevealed_run_timeout k s :
  isRevealed (run_timeout k s) = isRevealed s.
Proof.
  unfold run_timeout. destruct (timers s !! k); [| reflexivity].
  rewrite isRevealed_fire. reflexivity.
Qed.

Lemma isRevealed_common_step i s :
  isRevealed (common_step i s) = isRevealed s.
Proof.
  destruct i; cbn [common_step];
    auto using isRevealed_animate, isRevealed_run_timeout,
      isRevealed_addParticles.
Qed.

(** ** The reveal flag *)

Lemma Cycling_revealMessage_revealed e s :
  isRevealed (Cycling.revealMessage e s) = true.
Proof.
  unfold Cycling.revealMessage.
  destruct (isRevealed s) eqn:E; exact E || reflexivity.
Qed.

Lemma Basic_revealMessage_revealed s :
  isRevealed (Basic.revealMessage s) = true.
Proof.
  unfold Basic.revealMessage.
  destruct (isRevealed s) eqn:E; exact E || reflexivity.
Qed.

Lemma TapRipple_revealMessage_revealed s :
  isRevealed (TapRipple.revealMessage s) = true.
Proof.
  unfold TapRipple.revealMessage.
  destruct (isRevealed s) eqn:E; exact E || reflexivity.
Qed.

Lemma Cycling_step_keeps_revealed i s :
  isRevealed s = true -> isRevealed (Cycling_step i s) = true.
Proof.
  intros H.
  destruct i; cbn [Cycling_step];
    try (rewrite isRevealed_common_step; exact H).
  - apply Cycling_revealMessage_revealed.
  - apply Cycling_revealMessage_revealed.
  - unfold Cycling.handleKeyPress. destruct (is_reveal_key e); cbn [fst];
      [apply Cycling_revealMessage_revealed | exact H].
  - unfold Cycling.handleResize. rewrite isRevealed_initParticles. exact H.
Qed.

Lemma Basic_step_keeps_revealed i s :
  isRevealed s = true -> isRevealed (Basic_step i s) = true.
Proof.
  intros H.
  destruct i; cbn [Basic_step];
    try (rewrite isRevealed_common_step; exact H).
  - unfold Basic.handleInteraction.
    rewrite isRevealed_createParticleBurst. apply Basic_revealMessage_revealed.
  - unfold Basic.handleInteraction.
    rewrite isRevealed_createParticleBurst. apply Basic_revealMessage_revealed.
  - unfold Basic.handleKeyPress. destruct (is_reveal_key e); cbn [fst];
      [apply Basic_revealMessage_revealed | exact H].
  - unfold Basic.handleResize. rewrite isRevealed_initParticles. exact H.
Qed.

Lemma TapRipple_handleInteraction_keeps_revealed e s :
  isRevealed s = true -> isRevealed (TapRipple.handleInteraction e s) = true.
Proof.
  intros H. unfold TapRipple.handleInteraction.
  destruct (TapRipple.position e s) as [x y].
  set (s2 := createParticleBurst x y _).
  assert (H2 : isRevealed s2 = true)
    by (unfold s2; rewrite isRevealed_createParticleBurst; exact H).
  rewrite H2. exact H2.
Qed.

Lemma TapRipple_step_keeps_revealed i s :
  isRevealed s = true -> isRevealed (TapRipple_step i s) = true.
Proof.
  intros H.
  destruct i; cbn [TapRipple_step];
    try (rewrite isRevealed_common_step; exact H).
  - apply TapRipple_handleInteraction_keeps_revealed, H.
  - apply TapRipple_handleInteraction_keeps_revealed, H.
  - unfold TapRipple.handleKeyPress. destruct (is_reveal_key e); cbn [fst];
      [apply TapRipple_revealMessage_revealed | exact H].
  - exact H.
  - unfold TapRipple.handleScroll. cbn. destruct (Qeq_bool _ _); exact H.
Qed.




(** ** Cycling through the messages *)

Lemma next_index_valid i n :
  (0 < n)%nat -> Cycling.next_index (Idx i) n = Idx ((i + 1) mod n).
Proof. intros Hn. destruct n; [lia | reflexivity]. Qed.

Lemma cycleMessage_index e s i :
  CONFIG.currentMessageIndex (config s) = Idx i ->
  CONFIG.messages (config s) <> [] ->
  CONFIG.currentMessageIndex (config (Cycling.cycleMessage e s)) =
    Idx ((i + 1) mod length (CONFIG.messages (config s))) /\
  CONFIG.messages (config (Cycling.cycleMessage e s)) =
    CONFIG.messages (config s) /\
  isRevealed (Cycling.cycleMessage e s) = isRevealed s.
Proof.
  intros Hi Hne. unfold Cycling.cycleMessage. cbn. rewrite Hi.
  destruct (CONFIG.messages (config s)); [contradiction | repeat split].
Qed.

Lemma triggers_index es : forall s i,
  isRevealed s = true ->
  CONFIG.currentMessageIndex (config s) = Idx i ->
  (i < length (CONFIG.messages (config s)))%nat ->
  CONFIG.currentMessageIndex (config (triggers es s)) =
    Idx ((i + length es) mod length (CONFIG.messages (config s))).
Proof.
  unfold triggers.
  induction es as [| e es IH]; intros s i Hr Hi Hlt; cbn [foldl length].
  - rewrite Hi, Nat.add_0_r, Nat.mod_small by exact Hlt. reflexivity.
  - assert (Hne : CONFIG.messages (config s) <> [])
      by (intros E; rewrite E in Hlt; cbn in Hlt; lia).
    destruct (cycleMessage_index e s i Hi Hne) as (Hi' & Hm & Hr').
    unfold Cycling.revealMessage at 2. rewrite Hr.
    rewrite (IH _ _ (eq_trans Hr' Hr) Hi'); rewrite Hm.
    + rewrite Nat.Div0.add_mod_idemp_l. f_equal. f_equal. lia.
    + apply Nat.mod_upper_bound. lia.
Qed.

Lemma fade_in_shows m e s :
  shown (Cycling.fade_in (Some m) e s) = m /\
  Element.opacity (Document.message
    (document (Cycling.fade_in (Some m) e s))) = "1" /\
  Element.opacity (Document.subtitle
    (document (Cycling.fade_in (Some m) e s))) = "1" /\
  config (Cycling.fade_in (Some m) e s) = config s.
Proof.
  unfold Cycling.fade_in, shown.
  destruct (Cycling.getEventCoords e _) as [x y].
  destruct (createParticleBurst_frame x y
    (on_subtitle (Element.set_opacity "1")
       (on_message (Element.set_opacity "1")
          (on_subtitle (Element.set_textContent (Message.subtitle m))
             (on_message (Element.set_textContent (Message.title m)) s)))))
    as (_ & Hc & Hd & _).
  rewrite Hc, Hd. destruct m. repeat split.
Qed.

(** C5, as stated, fails when a second trigger arrives before the
    fade-in of the first has run: that fade-in shows the message the first
    trigger selected, while the index has already moved on.  On the page
    as loaded: a click reveals, two more clicks cycle twice, and when the
    first fade-in completes the title is the one of [messages[1]] while
    [currentMessageIndex] is 2. *)
Lemma fade_in_can_lag_behind_the_index :
  let s :=
    run Cycling_step
      [ click (mouse 400 300); timeout 0; timeout 0;
        click (mouse 400 300); click (mouse 400 300); timeout 0 ]
      (page 800 600 eighths) in
  shown s = Message.mk "Keep Exploring" "There's more to discover" /\
  Element.opacity (Document.message (document s)) = "1" /\
  CONFIG.currentMessageIndex (config s) = Idx 2 /\
  Cycling.message_at (CONFIG.messages (config s))
    (CONFIG.currentMessageIndex (config s)) =
    Some (Message.mk "Stay Curious" "The journey continues") /\
  Cycling.message_at (CONFIG.messages (config s))
    (CONFIG.currentMessageIndex (config s)) <> Some (shown s).
Proof. vm_compute. repeat split. discriminate. Qed.

(** C5 (amended): in a revealed state with a message list that is not
    empty, a cycle trigger advances the index by exactly 1 modulo the
    length of the list, and from a valid index [k] triggers in a row
    advance it by [k] modulo the length (three triggers on a list of
    three bring index 0 back to 0).  The trigger schedules one fade-in,
    which carries the message at the new index; whenever that fade-in
    runs, the title and the subtitle on display are that message, both
    opaque again; and when it runs while the index is still the one this
    trigger set, they are [messages[currentIndex]]. *)
Theorem cycling_is_modular (s : State) (i : nat) :
  isRevealed s = true ->
  CONFIG.currentMessageIndex (config s) = Idx i ->
  CONFIG.messages (config s) <> [] ->
  let msgs := CONFIG.messages (config s) in
  (forall e,
     CONFIG.currentMessageIndex (config (Cycling.revealMessage e s)) =
       Idx ((i + 1) mod length msgs)) /\
  ((i < length msgs)%nat -> forall es,
     CONFIG.currentMessageIndex (config (triggers es s)) =
       Idx ((i + length es) mod length msgs)) /\
  (forall e, exists m,
     msgs !! ((i + 1) mod length msgs) = Some m /\
     timers (Cycling.revealMessage e s) =
       timers s ++ [{| delay := 300; callback := FadeIn (Some m) e |}] /\
     (forall later,
        shown (fire (FadeIn (Some m) e) later) = m /\
        Element.opacity (Document.message
          (document (fire (FadeIn (Some m) e) later))) = "1" /\
        Element.opacity (Document.subtitle
          (document (fire (FadeIn (Some m) e) later))) = "1") /\
     (forall later,
        CONFIG.messages (config later) = msgs ->
        CONFIG.currentMessageIndex (config later) =
          CONFIG.currentMessageIndex (config (Cycling.revealMessage e s)) ->
        let s' := fire (FadeIn (Some m) e) later in
        Cycling.message_at (CONFIG.messages (config s'))
          (CONFIG.currentMessageIndex (config s')) = Some (shown s'))).
Proof.
  intros Hr Hi Hne msgs.
  assert (Hn : (0 < length msgs)%nat)
    by (subst msgs; destruct (CONFIG.messages (config s));
        [contradiction | cbn; lia]).
  destruct (lookup_lt_is_Some_2 msgs ((i + 1) mod length msgs)) as [m Hm];
    [apply Nat.mod_upper_bound; lia |].
  split; [| split].
  - intros e. unfold Cycling.revealMessage. rewrite Hr.
    apply cycleMessage_index; assumption.
  - intros Hlt es. apply triggers_index; assumption.
  - intros e. exists m. split; [exact Hm |].
    assert (Hcycle : Cycling.revealMessage e s = Cycling.cycleMessage e s)
      by (unfold Cycling.revealMessage; rewrite Hr; reflexivity).
    destruct (cycleMessage_index e s i Hi Hne) as (Hi' & Hmsgs & _).
    split; [| split].
    + rewrite Hcycle. unfold Cycling.cycleMessage. cbn. rewrite Hi.
      fold msgs. rewrite (next_index_valid i _ Hn).
      cbn [Cycling.message_at]. rewrite Hm. reflexivity.
    + intros later. cbn [fire].
      destruct (fade_in_shows m e later) as (H1 & H2 & H3 & _).
      split; [exact H1 | split; [exact H2 | exact H3]].
    + intros later Hlm Hli. cbn [fire].
      destruct (fade_in_shows m e later) as (H1 & _ & _ & Hc).
      rewrite Hc, H1, Hlm, Hli, Hcycle, Hi'. exact Hm.
Qed.

Lemma cycling_is_modular_witness :
  let s := Cycling_step (click (mouse 400 300)) (page 800 600 eighths) in
  CONFIG.currentMessageIndex (config (Cycling.revealMessage None s)) = Idx 1 /\
  CONFIG.currentMessageIndex
    (config (triggers [None; Some (mouse 1 1); None] s)) = Idx 0.
Proof.
  intros s.
  assert (Hr : isRevealed s = true) by reflexivity.
  assert (Hi : CONFIG.currentMessageIndex (config s) = Idx 0) by reflexivity.
  assert (Hne : CONFIG.messages (config s) <> []) by discriminate.
  destruct (cycling_is_modular s 0 Hr Hi Hne) as (Hone & Hmany & _).
  split.
  - apply (Hone None).
  - apply (Hmany ltac:(cbn; lia) [None; Some (mouse 1 1); None]).
Defined.

(** ** The animation pass *)

Lemma visit_beyond cv col k ps c :
  (length ps <= k)%nat -> visit cv col k (ps, c) = (ps, c).
Proof.
  intros Hk. unfold visit. rewrite lookup_ge_None_2 by exact Hk. reflexivity.
Qed.

Lemma foldl_visit_beyond cv col n : forall k ps c,
  (length ps <= k)%nat ->
  foldl (fun acc index => visit cv col index acc) (ps, c) (seq k n) = (ps, c).
Proof.
  induction n as [| n IH]; intros k ps c Hk; cbn [seq foldl].
  - reflexivity.
  - rewrite visit_beyond by exact Hk. apply IH. lia.
Qed.

(** The indexed loop, started at the index where [suf] begins, does to
    [suf] what [sweep] says, and leaves [pre] alone. *)
Lemma foldl_visit_sweep cv col n : forall pre suf c,
  (length suf <= n)%nat ->
  (foldl (fun acc index => visit cv col index acc) (pre ++ suf, c)
     (seq (length pre) n)).1 = pre ++ sweep cv suf.
Proof.
  induction n as [| n IH]; intros pre suf c Hn.
  - destruct suf; [reflexivity | cbn in Hn; lia].
  - cbn [seq foldl]. destruct suf as [| p rest].
    + rewrite visit_beyond by (rewrite app_nil_r; lia).
      rewrite foldl_visit_beyond by (rewrite app_nil_r; lia). reflexivity.
    + cbn [length] in Hn. unfold visit at 2.
      rewrite list_lookup_middle by reflexivity. cbn [sweep].
      destruct (Qle_bool (Particle.life (Particle.update cv p)) 0).
      * replace (delete (length pre) (pre ++ p :: rest)) with (pre ++ rest)
          by (rewrite delete_middle; reflexivity).
        destruct rest as [| q rest'].
        -- rewrite foldl_visit_beyond by (rewrite app_nil_r; lia).
           reflexivity.
        -- replace (pre ++ q :: rest') with ((pre ++ [q]) ++ rest')
             by (rewrite <- app_assoc; reflexivity).
           replace (S (length pre)) with (length (pre ++ [q]))
             by (rewrite length_app; cbn; lia).
           rewrite IH by (cbn [length] in Hn; lia).
           rewrite <- app_assoc. reflexivity.
      * replace (<[length pre := Particle.update cv p]> (pre ++ p :: rest))
          with ((pre ++ [Particle.update cv p]) ++ rest)
          by (rewrite insert_app_r_alt, Nat.sub_diag, <- app_assoc by lia;
              reflexivity).
        replace (S (length pre))
          with (length (pre ++ [Particle.update cv p]))
          by (rewrite length_app; cbn; lia).
        rewrite IH by lia. rewrite <- app_assoc. reflexivity.
Qed.

Lemma forEach_sweep cv col ps c :
  (forEach cv col (ps, c)).1 = sweep cv ps.
Proof.
  unfold forEach. cbn [fst].
  apply (foldl_visit_sweep cv col (length ps) [] ps c). lia.
Qed.

Lemma particles_animate s :
  particles (animate s) = sweep (canvas s) (particles s).
Proof.
  unfold animate.
  rewrite <- (forEach_sweep (canvas s)
                (CONFIG.color (CONFIG.particles (config s)))
                (particles s) (clearRect (ctx s))).
  destruct (forEach _ _ _). reflexivity.
Qed.

(** [update] takes the decay off the life of a decaying particle and
    leaves the life of any other particle alone. *)
Lemma update_life cv p :
  Particle.life (Particle.update cv p) =
  if gtb (Particle.decay p) 0 then Particle.life p - Particle.decay p
  else Particle.life p.
Proof. reflexivity. Qed.

(** A particle whose life has run out after its update is spliced out
    by the very call that updated it. *)
Lemma visit_removes_the_dead cv col k ps c p :
  ps !! k = Some p ->
  Qle_bool (Particle.life (Particle.update cv p)) 0 = true ->
  (visit cv col k (ps, c)).1 = delete k ps.
Proof. intros Hp Hdead. unfold visit. rewrite Hp, Hdead. reflexivity. Qed.

(** In a pass in which no life runs out, every particle is updated. *)
Lemma sweep_without_deaths cv ps :
  Forall (fun p => 0 < Particle.life (Particle.update cv p)) ps ->
  sweep cv ps = map (Particle.update cv) ps.
Proof.
  induction 1 as [| p rest Hp _ IH]; cbn [sweep map]; [reflexivity |].
  apply ltb_true in Hp. unfold ltb in Hp.
  apply negb_true_iff in Hp. rewrite Hp, IH. reflexivity.
Qed.

Lemma ambient_update cv p :
  ambient (Particle.update cv p) = ambient p.
Proof.
  unfold ambient. rewrite update_life. cbn [Particle.update Particle.decay].
  destruct (gtb (Particle.decay p) 0); reflexivity.
Qed.

Lemma ambient_survives cv p :
  ambient p = true ->
  Qle_bool (Particle.life (Particle.update cv p)) 0 = false.
Proof.
  unfold ambient. rewrite update_life. intros H.
  apply andb_true_iff in H as [Hd Hl]. apply negb_true_iff in Hd.
  rewrite Hd. unfold ltb in Hl. apply negb_true_iff in Hl. exact Hl.
Qed.

(** The pass removes no ambient particle: as many are in the array after
    it as before. *)
Lemma sweep_keeps_ambient cv n : forall ps,
  (length ps <= n)%nat ->
  length (filter (fun p => ambient p = true) (sweep cv ps)) =
  length (filter (fun p => ambient p = true) ps).
Proof.
  induction n as [| n IH]; intros ps Hn.
  - destruct ps; [reflexivity | cbn in Hn; lia].
  - destruct ps as [| p rest]; [reflexivity |].
    cbn [length] in Hn. cbn [sweep].
    destruct (Qle_bool (Particle.life (Particle.update cv p)) 0) eqn:Hdead.
    + assert (Hp : ambient p <> true)
        by (intros Ha; rewrite (ambient_survives cv p Ha) in Hdead;
            discriminate).
      rewrite (filter_cons_False _ p) by exact Hp.
      destruct rest as [| q rest']; [reflexivity |].
      cbn [length] in Hn. rewrite !filter_cons.
      destruct (decide (ambient q = true)); cbn [length];
        rewrite IH by lia; reflexivity.
    + rewrite !filter_cons, ambient_update.
      destruct (decide (ambient p = true)); cbn [length];
        rewrite IH by lia; reflexivity.
Qed.

Lemma animate_keeps_ambient s :
  length (filter (fun p => ambient p = true) (particles (animate s))) =
  length (filter (fun p => ambient p = true) (particles s)).
Proof.
  rewrite particles_animate.
  apply (sweep_keeps_ambient _ (length (particles s))). lia.
Qed.

(** The countdown itself is not at fault: in binary64 arithmetic, as in
    exact arithmetic, the life of a burst particle is above 0 after 49
    updates and not above 0 after 50. *)
Lemma binary64_countdown :
  PrimFloat.ltb 0 (Binary64.life_after 49 1) = true /\
  PrimFloat.leb (Binary64.life_after 50 1) 0 = true.
Proof. vm_compute. split; reflexivity. Qed.

(** C2, on the end-to-end scenario: a burst of 15 at (400, 300) on the
    800 x 600 page.  All 15 are in the array for 49 frames.  In frame 50
    every particle that is updated reaches life 0 and is spliced out, and
    every particle that follows a spliced one is passed over: 7 of the 15
    are still in the array after 50 frames, with 49 updates behind them
    and life 0.02.  The burst is gone only after frame 53. *)
Theorem burst_outlives_fifty_frames :
  let s0 := createParticleBurst 400 300 (page 800 600 eighths) in
  length (particles s0) = 15%nat /\
  map (fun p => (Qred (Particle.life p), Qred (Particle.decay p)))
    (particles s0) = replicate 15 (1, 1 # 50) /\
  length (particles (frames 49 s0)) = 15%nat /\
  length (particles (frames 50 s0)) = 7%nat /\
  map (fun p => Qred (Particle.life p)) (particles (frames 50 s0)) =
    replicate 7 (1 # 50) /\
  length (particles (frames 51 s0)) = 3%nat /\
  length (particles (frames 52 s0)) = 1%nat /\
  length (particles (frames 53 s0)) = 0%nat.
Proof. vm_compute. repeat split. Qed.

(** With the passed-over particles in mind, the closed surface is an
    invariant of the whole pass: if every particle is on it before a
    frame, every particle left in the array is on it after the frame. *)
Lemma sweep_keeps_inside cv n : forall ps,
  0 <= width cv -> 0 <= height cv ->
  (length ps <= n)%nat ->
  Forall (inside cv) ps -> Forall (inside cv) (sweep cv ps).
Proof.
  induction n as [| n IH]; intros ps Hw Hh Hn Hall.
  - destruct ps; [constructor | cbn in Hn; lia].
  - destruct Hall as [| p rest Hp Hrest]; [constructor |].
    cbn [length] in Hn. cbn [sweep].
    destruct (Qle_bool (Particle.life (Particle.update cv p)) 0).
    + destruct Hrest as [| q rest' Hq Hrest']; [constructor |].
      cbn [length] in Hn. constructor; [exact Hq | apply IH; auto; lia].
    + constructor; [| apply IH; auto; lia].
      unfold inside, Particle.update; cbn [Particle.x Particle.y].
      split; apply wrap_range; assumption.
Qed.

Lemma animate_keeps_inside s :
  0 <= width (canvas s) -> 0 <= height (canvas s) ->
  Forall (inside (canvas s)) (particles s) ->
  Forall (inside (canvas s)) (particles (animate s)).
Proof.
  intros Hw Hh Hall. rewrite particles_animate.
  apply (sweep_keeps_inside _ (length (particles s))); auto.
Qed.

(** ** What a frame paints and removes *)

Lemma painted_draws col ps : forall c,
  painted (foldl (fun c p => Particle.draw col p c) c ps) =
  painted c ++ map (disc_of col) ps.
Proof.
  induction ps as [| p ps IH]; intros c; cbn [foldl map].
  - rewrite app_nil_r. reflexivity.
  - rewrite IH. cbn [Particle.draw painted]. rewrite <- app_assoc.
    reflexivity.
Qed.

(** The indexed loop on both components: the array, and the context
    after the draws. *)
Lemma foldl_visit_draws cv col n : forall pre suf c,
  (length suf <= n)%nat ->
  (foldl (fun acc index => visit cv col index acc) (pre ++ suf, c)
     (seq (length pre) n)).2 =
  foldl (fun c p => Particle.draw col p c) c (visited cv suf).
Proof.
  induction n as [| n IH]; intros pre suf c Hn.
  - destruct suf; [reflexivity | cbn in Hn; lia].
  - cbn [seq foldl]. destruct suf as [| p rest].
    + rewrite visit_beyond by (rewrite app_nil_r; lia).
      rewrite foldl_visit_beyond by (rewrite app_nil_r; lia). reflexivity.
    + cbn [length] in Hn. unfold visit at 2.
      rewrite list_lookup_middle by reflexivity. cbn [visited foldl].
      destruct (Qle_bool (Particle.life (Particle.update cv p)) 0).
      * replace (delete (length pre) (pre ++ p :: rest)) with (pre ++ rest)
          by (rewrite delete_middle; reflexivity).
        destruct rest as [| q rest'].
        -- rewrite foldl_visit_beyond by (rewrite app_nil_r; lia).
           reflexivity.
        -- replace (pre ++ q :: rest') with ((pre ++ [q]) ++ rest')
             by (rewrite <- app_assoc; reflexivity).
           replace (S (length pre)) with (length (pre ++ [q]))
             by (rewrite length_app; cbn; lia).
           apply IH. cbn [length] in Hn. lia.
      * replace (<[length pre := Particle.update cv p]> (pre ++ p :: rest))
          with ((pre ++ [Particle.update cv p]) ++ rest)
          by (rewrite insert_app_r_alt, Nat.sub_diag, <- app_assoc by lia;
              reflexivity).
        replace (S (length pre))
          with (length (pre ++ [Particle.update cv p]))
          by (rewrite length_app; cbn; lia).
        apply IH. lia.
Qed.

Lemma ctx_animate s :
  ctx (animate s) =
  foldl (fun c p => Particle.draw (CONFIG.color (CONFIG.particles (config s)))
                      p c)
    (clearRect (ctx s)) (visited (canvas s) (particles s)).
Proof.
  unfold animate.
  rewrite <- (foldl_visit_draws (canvas s)
                (CONFIG.color (CONFIG.particles (config s)))
                (length (particles s)) [] (particles s) (clearRect (ctx s)))
    by lia.
  unfold forEach. cbn [fst app length].
  destruct (foldl _ _ _). reflexivity.
Qed.

Lemma painted_animate s :
  painted (ctx (animate s)) =
  map (disc_of (CONFIG.color (CONFIG.particles (config s))))
    (visited (canvas s) (particles s)).
Proof. rewrite ctx_animate, painted_draws. reflexivity. Qed.

Lemma sweep_visited_count cv n : forall ps,
  (length ps <= n)%nat ->
  (length (sweep cv ps) +
   length (filter (fun p => dead p = true) (visited cv ps)) = length ps)%nat /\
  (length (visited cv ps) <= length ps)%nat.
Proof.
  induction n as [| n IH]; intros ps Hn.
  - destruct ps; [split; reflexivity | cbn in Hn; lia].
  - destruct ps as [| p rest]; [split; reflexivity |].
    cbn [length] in Hn. cbn [sweep visited].
    destruct (Qle_bool (Particle.life (Particle.update cv p)) 0) eqn:E.
    + rewrite filter_cons_True by exact E.
      destruct rest as [| q rest']; [split; reflexivity |].
      cbn [length] in Hn |- *.
      destruct (IH rest' ltac:(lia)) as [H1 H2]. split; lia.
    + rewrite filter_cons_False
        by (unfold dead; rewrite E; discriminate).
      cbn [length].
      destruct (IH rest ltac:(lia)) as [H1 H2]. split; lia.
Qed.

(** X5: a frame never adds a particle, and it removes exactly the
    particles it updated whose life had run out: the length of the array
    after [animate], plus the number of dead particles among the ones the
    loop called on, is the length before.  The loop calls on at most as
    many particles as the array held. *)
Theorem animate_removes_the_dead_it_visits s :
  (length (particles (animate s)) +
   length (filter (fun p => dead p = true)
             (visited (canvas s) (particles s))) =
   length (particles s))%nat /\
  (length (visited (canvas s) (particles s)) <= length (particles s))%nat.
Proof.
  rewrite particles_animate.
  apply (sweep_visited_count _ (length (particles s))). lia.
Qed.

Lemma visited_without_deaths cv ps :
  Forall (fun p => 0 < Particle.life (Particle.update cv p)) ps ->
  visited cv ps = map (Particle.update cv) ps.
Proof.
  induction 1 as [| p rest Hp _ IH]; cbn [visited map]; [reflexivity |].
  apply ltb_true in Hp. unfold ltb in Hp.
  apply negb_true_iff in Hp. rewrite Hp, IH. reflexivity.
Qed.

(** X6: in a frame in which no life runs out, every particle of the array
    is updated once and painted once, and none is removed or moved to
    another index. *)
Theorem animate_without_deaths s :
  Forall (fun p => 0 < Particle.life (Particle.update (canvas s) p))
    (particles s) ->
  particles (animate s) = map (Particle.update (canvas s)) (particles s) /\
  painted (ctx (animate s)) =
    map (disc_of (CONFIG.color (CONFIG.particles (config s))))
      (map (Particle.update (canvas s)) (particles s)).
Proof.
  intros H.
  rewrite particles_animate, painted_animate.
  rewrite sweep_without_deaths, visited_without_deaths by exact H.
  split; reflexivity.
Qed.

Lemma animate_without_deaths_witness :
  let s := createParticleBurst 400 300 (page 800 600 eighths) in
  particles (animate s) = map (Particle.update (canvas s)) (particles s) /\
  painted (ctx (animate s)) =
    map (disc_of (CONFIG.color (CONFIG.particles (config s))))
      (map (Particle.update (canvas s)) (particles s)).
Proof.
  intros s. apply (animate_without_deaths s).
  vm_compute. repeat constructor.
Defined.

(** ** The life of a decaying particle *)

Lemma update_decay cv q :
  Particle.decay (Particle.update cv q) = Particle.decay q.
Proof. reflexivity. Qed.

Lemma update_opacity cv q :
  Particle.opacity (Particle.update cv q) =
  if gtb (Particle.decay q) 0 then Particle.life (Particle.update cv q)
  else Particle.opacity q.
Proof. reflexivity. Qed.

(** In the exact arithmetic of the embedding. *)
Lemma updates_decaying cv p : 0 < Particle.decay p -> forall k,
  Particle.decay (updates cv k p) = Particle.decay p /\
  Particle.life (updates cv k p) ==
    Particle.life p - inject_Z (Z.of_nat k) * Particle.decay p /\
  ((0 < k)%nat ->
   Particle.opacity (updates cv k p) = Particle.life (updates cv k p)).
Proof.
  intros Hd. apply ltb_true in Hd.
  induction k as [| k (IHd & IHl & _)].
  - cbn. split; [reflexivity | split; [ring | lia]].
  - change (updates cv (S k) p)
      with (Particle.update cv (updates cv k p)).
    rewrite update_decay, update_opacity, update_life.
    unfold gtb. rewrite IHd, Hd.
    split; [reflexivity | split; [| reflexivity]].
    rewrite IHl, Nat2Z.inj_succ. unfold Z.succ. rewrite inject_Z_plus. ring.
Qed.

(** X7: a particle with the life (1) and the decay (0.02) of a burst
    particle is alive after each of its first 49 updates and dead after
    the 50th and every later one, whatever its position and speed.  The
    countdown in binary64, the arithmetic of the script, agrees: from 1,
    the life is above 0 after each of 0 .. 49 subtractions of 0.02 and
    not above 0 after each of 50 .. 100. *)
Theorem burst_particle_lives_49_updates cv p k :
  Particle.life p == 1 -> Particle.decay p == 0.02 ->
  ((k < 50)%nat -> alive (updates cv k p)) /\
  ((50 <= k)%nat -> dead (updates cv k p) = true) /\
  forallb (fun j => PrimFloat.ltb 0 (Binary64.life_after j 1)) (seq 0 50) =
    true /\
  forallb (fun j => PrimFloat.leb (Binary64.life_after j 1) 0) (seq 50 51) =
    true.
Proof.
  intros Hl Hd.
  assert (Hpos : 0 < Particle.decay p) by (rewrite Hd; reflexivity).
  destruct (updates_decaying cv p Hpos k) as (_ & Hk & _).
  rewrite Hl, Hd in Hk.
  split; [| split; [| split; vm_compute; reflexivity]].
  - intros Hlt. unfold alive. rewrite Hk.
    assert (inject_Z (Z.of_nat k) <= inject_Z 49)
      by (rewrite <- Zle_Qle; lia).
    change (inject_Z 49) with 49 in *. lra.
  - intros Hge. unfold dead. apply Qle_bool_iff. rewrite Hk.
    assert (inject_Z 50 <= inject_Z (Z.of_nat k))
      by (rewrite <- Zle_Qle; lia).
    change (inject_Z 50) with 50 in *. lra.
Qed.

Lemma burst_particle_lives_49_updates_witness :
  let p := Particle.mk 400 300 2 0.5 (-0.5) 1 1 0.02 in
  alive (updates surface_800x600 49 p) /\
  dead (updates surface_800x600 50 p) = true.
Proof.
  intros p.
  assert (Hl : Particle.life p == 1) by reflexivity.
  assert (Hd : Particle.decay p == 0.02) by reflexivity.
  split.
  - exact (proj1 (burst_particle_lives_49_updates surface_800x600 p 49 Hl Hd)
             ltac:(lia)).
  - exact (proj1 (proj2
             (burst_particle_lives_49_updates surface_800x600 p 50 Hl Hd))
             ltac:(lia)).
Defined.

(** ** No dead particle is left in the array *)

Lemma constructor_alive cv cfg x0 y0 burst g :
  alive (Particle.constructor cv cfg x0 y0 burst g).1.
Proof.
  unfold Particle.constructor, bind, or_else, Math_random, ret.
  destruct x0 as [vx |], y0 as [vy |], burst;
    try destruct (truthy vx); try destruct (truthy vy); reflexivity.
Qed.

Lemma push_loop_Forall (P : Particle.t -> Prop) new :
  (forall g, P (new g).1) ->
  forall n ps g, Forall P ps -> Forall P (push_loop n new ps g).1.
Proof.
  intros Hnew. induction n as [| n IH]; intros ps g Hps; cbn [push_loop].
  - exact Hps.
  - pose proof (Hnew g) as Hp. destruct (new g) as [p g'].
    apply IH. apply Forall_app. split; [exact Hps | repeat constructor].
    exact Hp.
Qed.

Lemma sweep_keeps_alive cv n : forall ps,
  (length ps <= n)%nat -> Forall alive ps -> Forall alive (sweep cv ps).
Proof.
  induction n as [| n IH]; intros ps Hn Hall.
  - destruct ps; [constructor | cbn in Hn; lia].
  - destruct Hall as [| p rest Hp Hrest]; [constructor |].
    cbn [length] in Hn. cbn [sweep].
    destruct (Qle_bool (Particle.life (Particle.update cv p)) 0) eqn:E.
    + destruct Hrest as [| q rest' Hq Hrest']; [constructor |].
      cbn [length] in Hn. constructor; [exact Hq | apply IH; auto; lia].
    + constructor; [| apply IH; auto; lia].
      apply ltb_true. unfold ltb. rewrite E. reflexivity.
Qed.

Lemma alive_animate s :
  Forall alive (particles s) -> Forall alive (particles (animate s)).
Proof.
  intros H. rewrite particles_animate.
  apply (sweep_keeps_alive _ (length (particles s))); auto.
Qed.

Lemma alive_createParticleBurst x0 y0 s :
  Forall alive (particles s) ->
  Forall alive (particles (createParticleBurst x0 y0 s)).
Proof.
  intros H. rewrite particles_createParticleBurst.
  apply push_loop_Forall; [intros g; apply constructor_alive | exact H].
Qed.

Lemma alive_initParticles s : Forall alive (particles (initParticles s)).
Proof.
  rewrite particles_initParticles.
  apply push_loop_Forall; [intros g; apply constructor_alive | constructor].
Qed.

Lemma particles_addParticles n s :
  particles (addParticles n s) =
  (push_loop n
     (Particle.constructor (canvas s) (CONFIG.particles (config s))
        None None false) (particles s) (random s)).1.
Proof. unfold addParticles. destruct (push_loop _ _ _ _). reflexivity. Qed.

Lemma alive_addParticles n s :
  Forall alive (particles s) -> Forall alive (particles (addParticles n s)).
Proof.
  intros H. rewrite particles_addParticles.
  apply push_loop_Forall; [intros g; apply constructor_alive | exact H].
Qed.

(** Reduce a goal about the particles of a handler to the particles it
    started from. *)
Ltac keeps_alive :=
  repeat first
    [ assumption
    | apply alive_initParticles
    | apply alive_createParticleBurst
    | apply alive_addParticles
    | apply alive_animate ].

Lemma alive_fire cb s :
  Forall alive (particles s) -> Forall alive (particles (fire cb s)).
Proof.
  intros H.
  destruct cb as [| e | | [m |] e | | n]; cbn [fire];
    unfold TapRipple.reveal_effect, Cycling.reveal_effect,
      Basic.reveal_effect, Cycling.fade_in;
    branches; cbn -[createParticleBurst]; keeps_alive.
Qed.

Lemma alive_common_step i s :
  Forall alive (particles s) -> Forall alive (particles (common_step i s)).
Proof.
  intros H. destruct i; cbn [common_step]; keeps_alive.
  unfold run_timeout. destruct (timers s !! i); [| exact H].
  apply alive_fire. exact H.
Qed.

Lemma alive_Cycling_step i s :
  Forall alive (particles s) -> Forall alive (particles (Cycling_step i s)).
Proof.
  intros H.
  destruct i; cbn [Cycling_step]; try (apply alive_common_step; exact H);
    unfold Cycling.handleInteraction, Cycling.handleKeyPress,
      Cycling.revealMessage, Cycling.handleResize;
    branches; cbn -[initParticles]; keeps_alive.
Qed.

Lemma alive_Basic_step i s :
  Forall alive (particles s) -> Forall alive (particles (Basic_step i s)).
Proof.
  intros H.
  destruct i; cbn [Basic_step]; try (apply alive_common_step; exact H);
    unfold Basic.handleInteraction, Basic.handleKeyPress,
      Basic.revealMessage, Basic.handleResize;
    branches; cbn -[initParticles createParticleBurst]; keeps_alive.
Qed.

Lemma alive_TapRipple_step i s :
  Forall alive (particles s) ->
  Forall alive (particles (TapRipple_step i s)).
Proof.
  intros H.
  destruct i; cbn [TapRipple_step]; try (apply alive_common_step; exact H).
  - rewrite particles_TapRipple_handleInteraction. keeps_alive.
  - rewrite particles_TapRipple_handleInteraction. keeps_alive.
  - unfold TapRipple.handleKeyPress, TapRipple.revealMessage.
    branches; exact H.
  - exact H.
  - unfold TapRipple.handleScroll. cbn. destruct (Qeq_bool _ _); exact H.
Qed.

Lemma run_invariant (I : State -> Prop) step :
  (forall i s, I s -> I (step i s)) ->
  forall inputs s, I s -> I (run step inputs s).
Proof.
  intros Hstep. unfold run.
  induction inputs as [| i inputs IH]; intros s H; cbn [foldl].
  - exact H.
  - apply IH, Hstep, H.
Qed.

(** X8: between inputs the array never holds a dead particle.  If every
    particle has life above 0, then after any sequence of clicks,
    touches, key presses, resizes, scrolls, frames, timer callbacks and
    utility calls, in each of the three variants, every particle in the
    array still has life above 0: a particle whose life runs out is gone
    by the end of the frame in which it ran out, and a particle that a
    frame passed over was alive before that frame. *)
Theorem no_dead_particle_is_kept inputs s :
  Forall alive (particles s) ->
  Forall alive (particles (run Cycling_step inputs s)) /\
  Forall alive (particles (run Basic_step inputs s)) /\
  Forall alive (particles (run TapRipple_step inputs s)).
Proof.
  intros H. split; [| split].
  - apply (run_invariant (fun s => Forall alive (particles s)));
      [apply alive_Cycling_step | exact H].
  - apply (run_invariant (fun s => Forall alive (particles s)));
      [apply alive_Basic_step | exact H].
  - apply (run_invariant (fun s => Forall alive (particles s)));
      [apply alive_TapRipple_step | exact H].
Qed.

Lemma no_dead_particle_is_kept_witness :
  Forall alive
    (particles
       (run Cycling_step
          ([click (mouse 400 300); timeout 0] ++ replicate 52 frame)
          (page 800 600 eighths))).
Proof.
  assert (H : Forall alive (particles (page 800 600 eighths)))
    by constructor.
  exact (proj1 (no_dead_particle_is_kept
                  ([click (mouse 400 300); timeout 0] ++ replicate 52 frame)
                  (page 800 600 eighths) H)).
Defined.

Lemma initParticles_ambient s :
  unit_supply (random s) ->
  0 < width (canvas s) -> 0 < height (canvas s) ->
  0 <= CONFIG.maxSpeed (CONFIG.particles (config s)) ->
  length (particles (initParticles s)) =
    CONFIG.count (CONFIG.particles (config s)) /\
  Forall (ambient_on (canvas s) (CONFIG.particles (config s)))
    (particles (initParticles s)).
Proof.
  intros Hg Hw Hh Hm.
  destruct (push_loop_appends
              (ambient_on (canvas s) (CONFIG.particles (config s)))
              (Particle.constructor (canvas s) (CONFIG.particles (config s))
                 None None false)
              (fun g Hg' => constructor_ambient_on _ _ g Hw Hh Hm Hg')
              (CONFIG.count (CONFIG.particles (config s))) [] (random s) Hg)
    as (added & Heq & Hlen & Hall & _).
  rewrite particles_initParticles, Heq. split; [exact Hlen | exact Hall].
Qed.

Lemma initParticles_frame s :
  canvas (initParticles s) = canvas s /\ config (initParticles s) = config s /\
  timers (initParticles s) = timers s /\
  document (initParticles s) = document s /\
  isRevealed (initParticles s) = isRevealed s /\
  ctx (initParticles s) = ctx s.
Proof. unfold initParticles. destruct (push_loop _ _ _ _). repeat split. Qed.

(** X9: in [Cycling] and [Basic] a resize to a viewport with positive
    sides sets the canvas to the viewport and replaces the whole array, a
    burst in flight included, by [CONFIG.particles.count] fresh ambient
    particles on the new surface; the flag, the configuration and the
    pending timers are as before. *)
Theorem resize_regenerates_the_field (w h : Q) (s : State) :
  unit_supply (random s) -> 0 < w -> 0 < h ->
  0 <= CONFIG.maxSpeed (CONFIG.particles (config s)) ->
  let s' := Cycling_step (resize w h) s in
  Basic_step (resize w h) s = s' /\
  canvas s' = {| width := w; height := h |} /\
  length (particles s') = CONFIG.count (CONFIG.particles (config s)) /\
  Forall (ambient_on (canvas s') (CONFIG.particles (config s)))
    (particles s') /\
  timers s' = timers s /\ isRevealed s' = isRevealed s /\
  config s' = config s.
Proof.
  intros Hg Hw Hh Hm s'. subst s'. cbn [Cycling_step Basic_step].
  unfold Cycling.handleResize, Basic.handleResize.
  set (s1 := Cycling.setupCanvas (set_viewport w h s)).
  change (Basic.setupCanvas (set_viewport w h s)) with s1.
  destruct (initParticles_frame s1) as (Hc & Hcfg & Ht & _ & Hr & _).
  destruct (initParticles_ambient s1 Hg Hw Hh Hm) as (Hlen & Hall).
  rewrite Hc, Hcfg, Ht, Hr.
  repeat split; assumption.
Qed.

Lemma constructor_unit_supply cv cfg x0 y0 burst g :
  unit_supply g ->
  unit_supply (Particle.constructor cv cfg x0 y0 burst g).2.
Proof.
  intros Hg n.
  unfold Particle.constructor, bind, or_else, Math_random, ret.
  destruct x0 as [vx |], y0 as [vy |], burst;
    try destruct (truthy vx); try destruct (truthy vy); apply Hg.
Qed.

Lemma push_loop_unit_supply new :
  (forall g, unit_supply g -> unit_supply (new g).2) ->
  forall n ps g, unit_supply g -> unit_supply (push_loop n new ps g).2.
Proof.
  intros Hnew. induction n as [| n IH]; intros ps g Hg; cbn [push_loop].
  - exact Hg.
  - pose proof (Hnew g Hg) as Hg'. destruct (new g) as [p g'].
    apply IH, Hg'.
Qed.

Lemma unit_supply_createParticleBurst x0 y0 s :
  unit_supply (random s) ->
  unit_supply (random (createParticleBurst x0 y0 s)).
Proof.
  intros Hg. unfold createParticleBurst.
  pose proof (push_loop_unit_supply _
                (fun g => constructor_unit_supply (canvas s)
                            (CONFIG.particles (config s))
                            (Some x0) (Some y0) true g)
                (CONFIG.particleBurstCount (CONFIG.animation (config s)))
                (particles s) (random s) Hg) as H.
  destruct (push_loop _ _ _ _). exact H.
Qed.

Lemma resize_regenerates_the_field_witness :
  let s := createParticleBurst 400 300 (page 800 600 eighths) in
  let s' := Cycling_step (resize 1024 768) s in
  canvas s' = {| width := 1024; height := 768 |} /\
  length (particles s') = 50%nat.
Proof.
  intros s.
  assert (Hg : unit_supply (random s))
    by apply unit_supply_createParticleBurst, unit_supply_eighths.
  destruct (resize_regenerates_the_field 1024 768 s Hg
              ltac:(reflexivity) ltac:(reflexivity)
              ltac:(vm_compute; discriminate))
    as (_ & Hc & Hl & _).
  split; [exact Hc | exact Hl].
Defined.

(** ** The canvas of [TapRipple] *)

Lemma Qeq_bool_refl' a : Qeq_bool a a = true.
Proof. apply Qeq_bool_iff. reflexivity. Qed.

(** X10: in [TapRipple] the canvas is as wide as the viewport and as
    tall as the taller of the viewport and the document.  [handleResize]
    sets both sides and keeps the particles; [handleScroll] brings the
    height to that maximum (so it is at least the viewport height and at
    least the document height), keeps the width and the particles, and
    a second call changes nothing. *)
Theorem TapRipple_canvas_covers_the_page (s : State) :
  let tall := Qmax (innerHeight (window s)) (Document.scrollHeight (document s)) in
  (canvas (TapRipple.handleResize s) =
     {| width := innerWidth (window s); height := tall |} /\
   particles (TapRipple.handleResize s) = particles s) /\
  (height (canvas (TapRipple.handleScroll s)) == tall /\
   width (canvas (TapRipple.handleScroll s)) = width (canvas s) /\
   innerHeight (window s) <= height (canvas (TapRipple.handleScroll s)) /\
   Document.scrollHeight (document s) <=
     height (canvas (TapRipple.handleScroll s)) /\
   particles (TapRipple.handleScroll s) = particles s /\
   TapRipple.handleScroll (TapRipple.handleScroll s) =
     TapRipple.handleScroll s).
Proof.
  intros tall. split; [split; reflexivity |].
  unfold TapRipple.handleScroll. fold tall.
  assert (Hi : innerHeight (window s) <= tall) by apply Q.le_max_l.
  assert (Hs : Document.scrollHeight (document s) <= tall)
    by apply Q.le_max_r.
  destruct (Qeq_bool (height (canvas s)) tall) eqn:E.
  - apply Qeq_bool_iff in E as E'. fold tall. rewrite E.
    repeat split; try reflexivity; try exact E'; rewrite E'; assumption.
  - cbn. fold tall. rewrite Qeq_bool_refl'.
    repeat split; try reflexivity; assumption.
Qed.

(** ** Ripples *)

Lemma filter_keeps_older (n : nat) (body : list RippleNode.t) :
  Forall (fun r => (RippleNode.node r < n)%nat) body ->
  filter (fun r => RippleNode.node r ≠ n) body = body.
Proof.
  induction 1 as [| r body Hr _ IH]; [reflexivity |].
  rewrite filter_cons_True by lia. rewrite IH. reflexivity.
Qed.

Lemma fresh_nodes_createRipple x y s :
  fresh_nodes s -> fresh_nodes (TapRipple.createRipple x y s).
Proof.
  unfold fresh_nodes, TapRipple.createRipple. cbn. intros H.
  apply Forall_app. split.
  - eapply Forall_impl; [exact H | cbn; intros; lia].
  - repeat constructor.
Qed.

Lemma fresh_nodes_same s s' :
  Document.body (document s') = Document.body (document s) ->
  Document.created (document s') = Document.created (document s) ->
  fresh_nodes s -> fresh_nodes s'.
Proof. unfold fresh_nodes. intros -> ->. auto. Qed.

Lemma fresh_nodes_remove n s :
  fresh_nodes s -> fresh_nodes (TapRipple.remove_ripple n s).
Proof.
  unfold fresh_nodes, TapRipple.remove_ripple. cbn. intros H.
  apply Forall_forall. intros r Hr.
  apply list_elem_of_filter in Hr as [_ Hr].
  revert r Hr. apply Forall_forall. exact H.
Qed.

Lemma fresh_nodes_fire cb s : fresh_nodes s -> fresh_nodes (fire cb s).
Proof.
  intros H.
  destruct cb as [| e | | [m |] e | | n]; cbn [fire];
    try (apply fresh_nodes_remove; exact H);
    (eapply fresh_nodes_same; [| | exact H]);
    unfold TapRipple.reveal_effect, Cycling.reveal_effect,
      Basic.reveal_effect, Cycling.fade_in, createParticleBurst;
    branches; reflexivity.
Qed.

Lemma fresh_nodes_common_step i s :
  fresh_nodes s -> fresh_nodes (common_step i s).
Proof.
  intros H. destruct i; cbn [common_step]; try exact H.
  - eapply fresh_nodes_same; [| | exact H];
      unfold animate; branches; reflexivity.
  - unfold run_timeout. destruct (timers s !! i); [| exact H].
    apply fresh_nodes_fire.
    eapply fresh_nodes_same; [| | exact H]; reflexivity.
  - eapply fresh_nodes_same; [| | exact H];
      unfold addParticles; branches; reflexivity.
Qed.

Lemma fresh_nodes_handleInteraction e s :
  fresh_nodes s -> fresh_nodes (TapRipple.handleInteraction e s).
Proof.
  intros H. unfold TapRipple.handleInteraction.
  destruct (TapRipple.position e s) as [x y].
  pose proof (fresh_nodes_createRipple x y s H) as H1.
  set (s1 := TapRipple.createRipple x y s) in *.
  eapply fresh_nodes_same; [| | exact H1];
    unfold TapRipple.revealMessage, createParticleBurst;
    branches; reflexivity.
Qed.

Lemma fresh_nodes_TapRipple_step i s :
  fresh_nodes s -> fresh_nodes (TapRipple_step i s).
Proof.
  intros H.
  destruct i; cbn [TapRipple_step];
    try (apply fresh_nodes_common_step; exact H);
    try (apply fresh_nodes_handleInteraction; exact H);
    (eapply fresh_nodes_same; [| | exact H]);
    unfold TapRipple.handleKeyPress, TapRipple.revealMessage,
      TapRipple.handleScroll;
    cbn; branches; reflexivity.
Qed.

(** X11: a ripple is removed by its own timer and by no other.  On the
    page reached by any inputs from a state whose ripples are all known,
    [createRipple] appends one ripple at the given point, half its size
    up and to the left, and schedules its removal after 800 ms; that
    callback gives back the body as it was before the ripple, and run in
    any later state it leaves every other ripple in the body. *)
Theorem ripple_is_removed_by_its_own_timer inputs x y s :
  fresh_nodes s ->
  let s0 := run TapRipple_step inputs s in
  let s1 := TapRipple.createRipple x y s0 in
  let ripple :=
    {| RippleNode.node := Document.created (document s0);
       RippleNode.className := "ripple";
       RippleNode.left := x; RippleNode.top := y;
       RippleNode.width := CONFIG.ripple_size (CONFIG.ripple (config s0));
       RippleNode.height := CONFIG.ripple_size (CONFIG.ripple (config s0));
       RippleNode.marginLeft :=
         - (CONFIG.ripple_size (CONFIG.ripple (config s0)) / 2);
       RippleNode.marginTop :=
         - (CONFIG.ripple_size (CONFIG.ripple (config s0)) / 2) |} in
  Document.body (document s1) = Document.body (document s0) ++ [ripple] /\
  timers s1 =
    timers s0 ++
    [{| delay := 800; callback := RemoveRipple (RippleNode.node ripple) |}] /\
  Document.body (document (fire (RemoveRipple (RippleNode.node ripple)) s1)) =
    Document.body (document s0) /\
  (forall later other,
     other ∈ Document.body (document later) ->
     RippleNode.node other <> RippleNode.node ripple ->
     other ∈ Document.body
       (document (fire (RemoveRipple (RippleNode.node ripple)) later))).
Proof.
  intros H s0 s1 ripple.
  assert (H0 : fresh_nodes s0)
    by (apply (run_invariant fresh_nodes);
        [apply fresh_nodes_TapRipple_step | exact H]).
  split; [reflexivity | split; [reflexivity | split]].
  - cbn. rewrite filter_app, filter_keeps_older by exact H0.
    rewrite filter_cons_False by (cbn; intros Hne; apply Hne; reflexivity).
    rewrite filter_nil, app_nil_r. reflexivity.
  - intros later other Hin Hne. cbn.
    apply list_elem_of_filter. split; [exact Hne | exact Hin].
Qed.

Lemma ripple_is_removed_by_its_own_timer_witness :
  let s0 :=
    run TapRipple_step [click (mouse 100 100); click (mouse 200 200)]
      (page 800 600 eighths) in
  let s1 := TapRipple.createRipple 300 300 s0 in
  Document.body (document (fire (RemoveRipple 2) s1)) =
  Document.body (document s0).
Proof.
  intros s0 s1.
  assert (H : fresh_nodes (page 800 600 eighths)) by constructor.
  exact (proj1 (proj2 (proj2
    (ripple_is_removed_by_its_own_timer
       [click (mouse 100 100); click (mouse 200 200)] 300 300
       (page 800 600 eighths) H)))).
Defined.

(** ** The active pulse *)

Lemma classList_remove_add c l :
  c ∉ l -> classList_remove c (classList_add c l) = l.
Proof.
  intros Hc. unfold classList_remove, classList_add.
  rewrite decide_False by exact Hc.
  rewrite filter_app, filter_cons_False, filter_nil, app_nil_r
    by (intros Hne; apply Hne; reflexivity).
  induction l as [| d l IH]; [reflexivity |].
  apply not_elem_of_cons in Hc as [Hd Hl].
  rewrite filter_cons_True by congruence. rewrite IH by exact Hl.
  reflexivity.
Qed.

Lemma classList_remove_absent c l : c ∉ classList_remove c l.
Proof.
  unfold classList_remove. intros Hin.
  apply list_elem_of_filter in Hin as [Hne _]. apply Hne. reflexivity.
Qed.

(** X12: the pulse of [handleInteraction] marks the container active
    and schedules the callback, after 100 ms, that unmarks it: after that
    callback the container is never active, and when the container was
    not active before the pulse it is exactly as it was. *)
Theorem pulse_is_undone_by_its_timer (s : State) :
  (timers (pulse s) =
     timers s ++ [{| delay := 100; callback := ClearActive |}] /\
   "active" ∈ Element.classList (Document.container (document (pulse s)))) /\
  ("active" ∉
     Element.classList (Document.container (document (fire ClearActive s)))) /\
  ("active" ∉ Element.classList (Document.container (document s)) ->
   Document.container (document (fire ClearActive (pulse s))) =
   Document.container (document s)).
Proof.
  split; [split; [reflexivity |] | split].
  - cbn -[classList_add]. unfold classList_add.
    destruct (decide _) as [Hin | _]; [exact Hin |].
    apply elem_of_app. right. apply list_elem_of_singleton. reflexivity.
  - cbn -[classList_remove]. apply classList_remove_absent.
  - intros Hc. cbn -[classList_remove classList_add].
    unfold remove_class, add_class. cbn -[classList_remove classList_add].
    rewrite classList_remove_add by exact Hc.
    destruct (Document.container (document s)). reflexivity.
Qed.

Lemma pulse_is_undone_by_its_timer_witness :
  Document.container
    (document (fire ClearActive (pulse (page 800 600 eighths)))) =
  Document.container (document (page 800 600 eighths)).
Proof.
  apply (proj2 (proj2 (pulse_is_undone_by_its_timer (page 800 600 eighths)))).
  cbn. apply not_elem_of_nil.
Defined.

(** ** The utility surface *)

(** X13: [addParticles(n)] appends exactly [n] ambient particles and
    keeps the particles already in the array; on a surface with positive
    sides they lie on it, with the configured size, speeds within half
    the speed limit and opacity in [[0.3, 0.8]]. *)
Theorem addParticles_appends_ambient (n : nat) (s : State) :
  unit_supply (random s) ->
  0 < width (canvas s) -> 0 < height (canvas s) ->
  0 <= CONFIG.maxSpeed (CONFIG.particles (config s)) ->
  exists added,
    particles (addParticles n s) = particles s ++ added /\
    length added = n /\
    Forall (ambient_on (canvas s) (CONFIG.particles (config s))) added /\
    unit_supply (random (addParticles n s)).
Proof.
  intros Hg Hw Hh Hm.
  destruct (push_loop_appends
              (ambient_on (canvas s) (CONFIG.particles (config s)))
              (Particle.constructor (canvas s) (CONFIG.particles (config s))
                 None None false)
              (fun g Hg' => constructor_ambient_on _ _ g Hw Hh Hm Hg')
              n (particles s) (random s) Hg)
    as (added & Heq & Hlen & Hall & Hsup).
  exists added. rewrite particles_addParticles.
  split; [exact Heq | split; [exact Hlen | split; [exact Hall |]]].
  unfold addParticles. destruct (push_loop _ _ _ _). exact Hsup.
Qed.

Lemma addParticles_appends_ambient_witness :
  exists added,
    particles (addParticles 20 (initParticles (page 800 600 eighths))) =
      particles (initParticles (page 800 600 eighths)) ++ added /\
    length added = 20%nat.
Proof.
  assert (Hg : unit_supply (random (initParticles (page 800 600 eighths)))).
  { unfold initParticles.
    pose proof (push_loop_unit_supply _
                  (fun g => constructor_unit_supply
                              (canvas (page 800 600 eighths))
                              (CONFIG.particles (config (page 800 600 eighths)))
                              None None false g)
                  50 [] eighths unit_supply_eighths) as H.
    cbn [config page CONFIG.particles CONFIG.count default_config random].
    destruct (push_loop _ _ _ _). exact H. }
  destruct (addParticles_appends_ambient 20
              (initParticles (page 800 600 eighths)) Hg)
    as (added & Heq & Hlen & _).
  - destruct (initParticles_frame (page 800 600 eighths)) as (-> & _).
    reflexivity.
  - destruct (initParticles_frame (page 800 600 eighths)) as (-> & _).
    reflexivity.
  - destruct (initParticles_frame (page 800 600 eighths)) as (_ & -> & _).
    vm_compute. discriminate.
  - exists added. split; [exact Heq | exact Hlen].
Defined.

(** X14: after [setParticleColor(c)] the style the next frame assigns to
    [ctx.fillStyle] before each of its discs is [c]; the particles, and
    the position, size and assigned alpha of each disc, are the ones the
    frame would have had without the call.  (Whether the context takes
    the assignment, which it does for a CSS colour only, is the host's
    matter.) *)
Theorem setParticleColor_sets_the_style_the_next_frame_assigns (c : string) (s : State) :
  Forall (fun d => fill d = c)
    (painted (ctx (animate (setParticleColor c s)))) /\
  particles (animate (setParticleColor c s)) = particles (animate s) /\
  map (fun d => (cx d, cy d, radius d, alpha d))
    (painted (ctx (animate (setParticleColor c s)))) =
  map (fun d => (cx d, cy d, radius d, alpha d))
    (painted (ctx (animate s))).
Proof.
  rewrite !painted_animate, !particles_animate.
  split; [| split].
  - apply Forall_forall. intros d Hd.
    apply list_elem_of_fmap in Hd as (p & -> & _). reflexivity.
  - reflexivity.
  - cbn. rewrite <- !list_fmap_compose. reflexivity.
Qed.

(** ** Taps in [TapRipple] *)

(** X15: in [TapRipple] every click or touch makes a ripple at the
    computed position, revealed or not, whatever [CONFIG.ripple.alwaysShow]
    is (the option is never read), and schedules its removal after
    800 ms.  Only a tap in the hidden state schedules anything else: the
    reveal effect and the end of the pulse.  The page is revealed after
    any tap. *)
Theorem every_tap_makes_a_ripple (e : Event.t) (s : State) :
  let pos := TapRipple.position e s in
  let sz := CONFIG.ripple_size (CONFIG.ripple (config s)) in
  let ripple :=
    {| RippleNode.node := Document.created (document s);
       RippleNode.className := "ripple";
       RippleNode.left := pos.1; RippleNode.top := pos.2;
       RippleNode.width := sz; RippleNode.height := sz;
       RippleNode.marginLeft := - (sz / 2);
       RippleNode.marginTop := - (sz / 2) |} in
  let s' := TapRipple.handleInteraction e s in
  Document.body (document s') = Document.body (document s) ++ [ripple] /\
  (exists rest,
     timers s' =
       timers s ++
       {| delay := 800;
          callback := RemoveRipple (Document.created (document s)) |} :: rest /\
     (isRevealed s = true -> rest = []) /\
     (isRevealed s = false ->
      rest =
        [ {| delay := CONFIG.revealDelay (CONFIG.animation (config s));
             callback := RevealTap |};
          {| delay := 100; callback := ClearActive |} ])) /\
  isRevealed s' = true.
Proof.
  cbn zeta. unfold TapRipple.handleInteraction.
  destruct (TapRipple.position e s) as [x y]. cbn [fst snd].
  set (s1 := TapRipple.createRipple x y s).
  destruct (createParticleBurst_frame x y s1) as (Hr & Hc & Hd & Ht & _).
  set (s2 := createParticleBurst x y s1) in *.
  destruct (isRevealed s) eqn:E.
  - assert (E2 : isRevealed s2 = true) by (rewrite Hr; exact E).
    rewrite E2. cbn [negb]. rewrite Hd, Ht.
    split; [reflexivity | split; [| exact E2]].
    exists []. split; [reflexivity | split; [reflexivity | discriminate]].
  - assert (E2 : isRevealed s2 = false) by (rewrite Hr; exact E).
    rewrite E2. cbn [negb]. unfold TapRipple.revealMessage. rewrite E2.
    cbn. rewrite Hd, Ht, Hc.
    split; [reflexivity | split; [| reflexivity]].
    eexists. split; [| split; [discriminate | reflexivity]].
    cbn. rewrite <- !app_assoc. reflexivity.
Qed.

(** ** The prompt stays hidden *)

Lemma classList_add_keeps c d l : d ∈ l -> d ∈ classList_add c l.
Proof.
  intros H. unfold classList_add. destruct (decide _); [exact H |].
  apply elem_of_app. left. exact H.
Qed.

Lemma classList_add_has c l : c ∈ classList_add c l.
Proof.
  unfold classList_add. destruct (decide _) as [H | _]; [exact H |].
  apply elem_of_app. right. apply list_elem_of_singleton. reflexivity.
Qed.

Ltac prompt_same := split; left; reflexivity.

Lemma prompt_grows_fire cb s : prompt_grows s (fire cb s).
Proof.
  destruct cb as [| e | | [m |] e | | n]; cbn [fire];
    unfold TapRipple.reveal_effect, Cycling.reveal_effect,
      Basic.reveal_effect, Cycling.fade_in, createParticleBurst;
    branches; prompt_same.
Qed.

Lemma prompt_grows_common_step i s : prompt_grows s (common_step i s).
Proof.
  destruct i; cbn [common_step]; try prompt_same.
  - unfold animate. branches. prompt_same.
  - unfold run_timeout. destruct (timers s !! i); [| prompt_same].
    apply (prompt_grows_fire _ (set_timers _ s)).
  - unfold addParticles. branches. prompt_same.
Qed.

Ltac prompt_cases :=
  branches; first [prompt_same | split; right; reflexivity].

Lemma prompt_grows_Cycling_step i s : prompt_grows s (Cycling_step i s).
Proof.
  destruct i; cbn [Cycling_step]; try apply prompt_grows_common_step;
    unfold Cycling.handleInteraction, Cycling.handleKeyPress,
      Cycling.revealMessage, Cycling.handleResize, initParticles;
    cbn; prompt_cases.
Qed.

Lemma prompt_grows_Basic_step i s : prompt_grows s (Basic_step i s).
Proof.
  destruct i; cbn [Basic_step]; try apply prompt_grows_common_step;
    unfold Basic.handleInteraction, Basic.handleKeyPress,
      Basic.revealMessage, Basic.handleResize, initParticles,
      createParticleBurst;
    cbn; prompt_cases.
Qed.

Lemma prompt_grows_TapRipple_step i s : prompt_grows s (TapRipple_step i s).
Proof.
  destruct i; cbn [TapRipple_step]; try apply prompt_grows_common_step;
    unfold TapRipple.handleInteraction, TapRipple.handleKeyPress,
      TapRipple.revealMessage, TapRipple.handleResize,
      TapRipple.handleScroll, createParticleBurst;
    cbn; prompt_cases.
Qed.

Lemma hidden_prompt_grows s s' :
  prompt_grows s s' -> hidden_prompt s -> hidden_prompt s'.
Proof.
  unfold hidden_prompt.
  intros [[Ei | Ei] [Eh | Eh]] [Hi Hh]; rewrite Ei, Eh; split;
    try assumption; apply classList_add_keeps; assumption.
Qed.

(** X18: once the instruction and the hint are hidden they stay hidden:
    no sequence of inputs, in any variant, takes the class [hidden] off
    either of them. *)
Theorem prompt_is_never_shown_again inputs s :
  hidden_prompt s ->
  hidden_prompt (run Cycling_step inputs s) /\
  hidden_prompt (run Basic_step inputs s) /\
  hidden_prompt (run TapRipple_step inputs s).
Proof.
  intros H. split; [| split]; apply (run_invariant hidden_prompt); auto;
    intros i s0; apply hidden_prompt_grows;
    auto using prompt_grows_Cycling_step, prompt_grows_Basic_step,
      prompt_grows_TapRipple_step.
Qed.

(** ** The first two interactions in [Cycling] *)

Lemma Cycling_interaction_when_hidden e s :
  isRevealed s = false ->
  let s1 := Cycling.handleInteraction e s in
  isRevealed s1 = true /\ hidden_prompt s1 /\
  config s1 = config s /\
  particles s1 = particles s /\ shown s1 = shown s /\
  timers s1 =
    timers s ++
    [ {| delay := CONFIG.revealDelay (CONFIG.animation (config s));
         callback := RevealAt (Some e) |};
      {| delay := 100; callback := ClearActive |} ].
Proof.
  intros Hr. cbn zeta.
  unfold Cycling.handleInteraction, Cycling.revealMessage. rewrite Hr.
  cbn -[classList_add]. rewrite <- !app_assoc.
  repeat split; try reflexivity; apply classList_add_has.
Qed.

Lemma Cycling_interaction_when_revealed e s i :
  isRevealed s = true ->
  CONFIG.currentMessageIndex (config s) = Idx i ->
  CONFIG.messages (config s) <> [] ->
  let n := length (CONFIG.messages (config s)) in
  let s2 := Cycling.handleInteraction e s in
  CONFIG.currentMessageIndex (config s2) = Idx ((i + 1) mod n) /\
  particles s2 = particles s /\ shown s2 = shown s /\
  Element.opacity (Document.message (document s2)) = "0" /\
  Element.opacity (Document.subtitle (document s2)) = "0" /\
  exists m,
    CONFIG.messages (config s) !! ((i + 1) mod n) = Some m /\
    timers s2 =
      timers s ++
      [ {| delay := 300; callback := FadeIn (Some m) (Some e) |};
        {| delay := 100; callback := ClearActive |} ].
Proof.
  intros Hr Hi Hne n. cbn zeta.
  assert (Hn : (0 < n)%nat)
    by (subst n; destruct (CONFIG.messages (config s));
        [contradiction | cbn; lia]).
  destruct (lookup_lt_is_Some_2 (CONFIG.messages (config s))
              ((i + 1) mod n)) as [m Hm];
    [apply Nat.mod_upper_bound; lia |].
  unfold Cycling.handleInteraction, Cycling.revealMessage. rewrite Hr.
  unfold Cycling.cycleMessage.
  cbn -[Cycling.next_index]. rewrite Hi. fold n.
  rewrite (next_index_valid i n Hn). cbn [Cycling.message_at].
  rewrite Hm, <- !app_assoc.
  repeat split. exists m. split; reflexivity.
Qed.

(** X17: the first two interactions in [Cycling], from a hidden page
    with a message list that is not empty.  The first sets the flag,
    hides the instruction and the hint, leaves the index, the text and
    the particles alone, and schedules the reveal effect after
    [revealDelay] and the end of the pulse after 100 ms.  The second
    advances the index by one modulo the length, sets the opacity of the
    title and the subtitle to 0, and schedules the fade-in of the message
    at the new index after 300 ms and the end of its pulse, and no second
    reveal effect; text and particles change only when the callbacks
    run. *)
Theorem first_interaction_reveals_second_cycles (e1 e2 : Event.t)
    (s : State) (i : nat) :
  isRevealed s = false ->
  CONFIG.currentMessageIndex (config s) = Idx i ->
  CONFIG.messages (config s) <> [] ->
  let n := length (CONFIG.messages (config s)) in
  let s1 := Cycling.handleInteraction e1 s in
  let s2 := Cycling.handleInteraction e2 s1 in
  (isRevealed s1 = true /\ hidden_prompt s1 /\
   CONFIG.currentMessageIndex (config s1) = Idx i /\
   particles s1 = particles s /\ shown s1 = shown s /\
   timers s1 =
     timers s ++
     [ {| delay := CONFIG.revealDelay (CONFIG.animation (config s));
          callback := RevealAt (Some e1) |};
       {| delay := 100; callback := ClearActive |} ]) /\
  (CONFIG.currentMessageIndex (config s2) = Idx ((i + 1) mod n) /\
   particles s2 = particles s /\ shown s2 = shown s /\
   Element.opacity (Document.message (document s2)) = "0" /\
   Element.opacity (Document.subtitle (document s2)) = "0" /\
   exists m,
     CONFIG.messages (config s) !! ((i + 1) mod n) = Some m /\
     timers s2 =
       timers s1 ++
       [ {| delay := 300; callback := FadeIn (Some m) (Some e2) |};
         {| delay := 100; callback := ClearActive |} ]).
Proof.
  intros Hr Hi Hne n s1 s2.
  destruct (Cycling_interaction_when_hidden e1 s Hr)
    as (Hr1 & Hp1 & Hc1 & Hps1 & Hsh1 & Ht1).
  fold s1 in Hr1, Hp1, Hc1, Hps1, Hsh1, Ht1.
  assert (Hi1 : CONFIG.currentMessageIndex (config s1) = Idx i)
    by (rewrite Hc1; exact Hi).
  assert (Hne1 : CONFIG.messages (config s1) <> [])
    by (rewrite Hc1; exact Hne).
  destruct (Cycling_interaction_when_revealed e2 s1 i Hr1 Hi1 Hne1)
    as (Hi2 & Hps2 & Hsh2 & Ho1 & Ho2 & m & Hm & Ht2).
  fold s2 in Hi2, Hps2, Hsh2, Ho1, Ho2, Ht2.
  rewrite Hc1 in Hi2, Hm. fold n in Hi2, Hm.
  split.
  - repeat split; try assumption; apply Hp1.
  - split; [exact Hi2 |].
    split; [rewrite Hps2; exact Hps1 |].
    split; [rewrite Hsh2; exact Hsh1 |].
    split; [exact Ho1 | split; [exact Ho2 |]].
    exists m. split; [exact Hm | exact Ht2].
Qed.

Lemma first_interaction_reveals_second_cycles_witness :
  let s1 := Cycling.handleInteraction (mouse 10 20) (page 800 600 eighths) in
  let s2 := Cycling.handleInteraction (mouse 30 40) s1 in
  isRevealed s1 = true /\
  CONFIG.currentMessageIndex (config s1) = Idx 0 /\
  CONFIG.currentMessageIndex (config s2) = Idx 1.
Proof.
  intros s1 s2.
  destruct (first_interaction_reveals_second_cycles
              (mouse 10 20) (mouse 30 40) (page 800 600 eighths) 0
              eq_refl eq_refl ltac:(discriminate))
    as ((H1 & _ & H2 & _) & (H3 & _)).
  split; [exact H1 | split; [exact H2 | exact H3]].
Defined.

(** ** The reveal effect *)

Lemma burst_added_after (f : State -> State) x0 y0 s :
  particles (f s) = particles s -> random (f s) = random s ->
  config (f s) = config s -> canvas (f s) = canvas s ->
  unit_supply (random s) -> ~ x0 == 0 -> ~ y0 == 0 ->
  burst_added x0 y0 s (createParticleBurst x0 y0 (f s)).
Proof.
  intros Hp Hg Hc Hcv Hs Hx Hy.
  destruct (createParticleBurst_appends x0 y0 (f s)) as (added & H1 & H2 & H3);
    [rewrite Hg; exact Hs | exact Hx | exact Hy |].
  exists added. rewrite <- Hp, <- Hc. auto.
Qed.

Lemma half_nonzero a : ~ a == 0 -> ~ a / 2 == 0.
Proof.
  intros H E. apply H. unfold Qdiv in E. change (/ 2) with (1 # 2) in E.
  lra.
Qed.

Lemma document_createParticleBurst x0 y0 s :
  document (createParticleBurst x0 y0 s) = document s.
Proof. apply createParticleBurst_frame. Qed.

(** X16: the reveal callback of each variant marks the title and the
    subtitle as revealed.  Without [glowOnReveal] it adds no particle.
    With it, it adds one burst: at the centre of the viewport in
    [TapRipple], at the centre of the canvas in [Basic], and in [Cycling]
    at the coordinates [getEventCoords] resolves when the callback runs
    (the centre of the canvas for a key press), provided the origin is on
    neither axis. *)
Theorem reveal_effect_shows_and_bursts (s : State) :
  unit_supply (random s) ->
  (* the three callbacks mark the title and the subtitle as revealed *)
  (shown_revealed (fire RevealTap s) /\ shown_revealed (fire RevealCentre s) /\
   forall e, shown_revealed (fire (RevealAt e) s)) /\
  (* without the glow option no particle is added *)
  (CONFIG.glowOnReveal (CONFIG.particles (config s)) = false ->
   particles (fire RevealTap s) = particles s /\
   particles (fire RevealCentre s) = particles s /\
   forall e, particles (fire (RevealAt e) s) = particles s) /\
  (* with it, one burst is added, at the variant's origin *)
  (CONFIG.glowOnReveal (CONFIG.particles (config s)) = true ->
   (~ innerWidth (window s) == 0 -> ~ innerHeight (window s) == 0 ->
    burst_added (innerWidth (window s) / 2) (innerHeight (window s) / 2)
      s (fire RevealTap s)) /\
   (~ width (canvas s) == 0 -> ~ height (canvas s) == 0 ->
    burst_added (width (canvas s) / 2) (height (canvas s) / 2)
      s (fire RevealCentre s)) /\
   (forall e,
      ~ (Cycling.getEventCoords e s).1 == 0 ->
      ~ (Cycling.getEventCoords e s).2 == 0 ->
      burst_added (Cycling.getEventCoords e s).1
        (Cycling.getEventCoords e s).2 s (fire (RevealAt e) s))).
Proof.
  intros Hg. split; [| split].
  - unfold shown_revealed. cbn [fire].
    unfold TapRipple.reveal_effect, Basic.reveal_effect,
      Cycling.reveal_effect.
    repeat split; try intros e;
      branches; cbn -[classList_add createParticleBurst];
      rewrite ?document_createParticleBurst;
      cbn -[classList_add]; apply classList_add_has.
  - intros Hglow. cbn [fire].
    unfold TapRipple.reveal_effect, Basic.reveal_effect,
      Cycling.reveal_effect.
    cbn [config on_message on_subtitle set_document]. rewrite Hglow.
    repeat split.
  - intros Hglow. cbn [fire].
    unfold TapRipple.reveal_effect, Basic.reveal_effect,
      Cycling.reveal_effect.
    cbn [config on_message on_subtitle set_document]. rewrite Hglow.
    split; [| split].
    + intros Hx Hy.
      destruct (burst_added_after
                  (fun t => on_subtitle (add_class "revealed")
                              (on_message (add_class "revealed") t))
                  (innerWidth (window s) / 2) (innerHeight (window s) / 2) s)
        as (added & H1 & H2 & H3); try reflexivity; try assumption.
      * apply half_nonzero, Hx.
      * apply half_nonzero, Hy.
      * exists added. auto.
    + intros Hx Hy.
      apply (burst_added_after
               (fun t => on_subtitle (add_class "revealed")
                           (on_message (add_class "revealed") t)));
        try reflexivity; try assumption.
      * apply half_nonzero, Hx.
      * apply half_nonzero, Hy.
    + intros e Hx Hy.
      change (Cycling.getEventCoords e
                (on_subtitle (add_class "revealed")
                   (on_message (add_class "revealed") s)))
        with (Cycling.getEventCoords e s).
      destruct (Cycling.getEventCoords e s) as [x y]. cbn [fst snd] in *.
      apply (burst_added_after
               (fun t => on_subtitle (add_class "revealed")
                           (on_message (add_class "revealed") t)));
        try reflexivity; assumption.
Qed.

Lemma reveal_effect_shows_and_bursts_witness :
  shown_revealed (fire (RevealAt None) (page 800 600 eighths)) /\
  burst_added (800 / 2) (600 / 2) (page 800 600 eighths)
    (fire (RevealAt None) (page 800 600 eighths)).
Proof.
  destruct (reveal_effect_shows_and_bursts (page 800 600 eighths)
              unit_supply_eighths) as ((_ & _ & Hs) & _ & Hb).
  split; [apply Hs |].
  destruct (Hb eq_refl) as (_ & _ & Hat).
  apply (Hat None); vm_compute; discriminate.
Defined.

(** ** An empty message list *)

(** X20: with an empty message list a cycle trigger turns the index
    into [NaN], where it stays for every later trigger, sets the opacity
    of the title and the subtitle to 0 and schedules a fade-in that has
    no message; that callback stops at its first statement, so the text
    is unchanged, no particle is added, and the title and the subtitle are
    left at opacity 0. *)
Theorem empty_message_list_blanks_the_text (e : option Event.t) (s : State) :
  isRevealed s = true ->
  CONFIG.messages (config s) = [] ->
  let s1 := Cycling.revealMessage e s in
  let s2 := fire (FadeIn None e) s1 in
  CONFIG.currentMessageIndex (config s1) = NaN /\
  timers s1 = timers s ++ [{| delay := 300; callback := FadeIn None e |}] /\
  Element.opacity (Document.message (document s2)) = "0" /\
  Element.opacity (Document.subtitle (document s2)) = "0" /\
  shown s2 = shown s /\
  particles s2 = particles s /\
  (forall e', CONFIG.currentMessageIndex
                (config (Cycling.revealMessage e' s1)) = NaN).
Proof.
  intros Hr Hm. cbn zeta.
  unfold Cycling.revealMessage. rewrite Hr. cbn [isRevealed].
  unfold Cycling.cycleMessage. cbn. rewrite Hm. cbn.
  assert (Hnan : Cycling.next_index (CONFIG.currentMessageIndex (config s)) 0
                 = NaN)
    by (destruct (CONFIG.currentMessageIndex (config s)); reflexivity).
  rewrite Hnan. cbn. repeat split.
  intros e'. rewrite Hr. reflexivity.
Qed.

Lemma empty_message_list_blanks_the_text_witness :
  let s :=
    set_isRevealed true
      (set_config
         (CONFIG.mk (CONFIG.particles default_config)
            (CONFIG.animation default_config) (CONFIG.ripple default_config)
            [] (Idx 0))
         (page 800 600 eighths)) in
  let s1 := Cycling.revealMessage None s in
  CONFIG.currentMessageIndex (config s1) = NaN /\
  Element.opacity (Document.message (document (fire (FadeIn None None) s1)))
    = "0".
Proof.
  intros s s1.
  destruct (empty_message_list_blanks_the_text None s eq_refl eq_refl)
    as (H1 & _ & H2 & _).
  split; [exact H1 | exact H2].
Defined.

(** ** Start-up *)

Lemma ambient_on_alive_after_update cv cfg p :
  ambient_on cv cfg p -> 0 < Particle.life (Particle.update cv p).
Proof.
  intros (_ & _ & _ & _ & _ & _ & Hl & Hd).
  rewrite update_life, Hd, Hl. reflexivity.
Qed.

(** X22: after [init] in [Cycling] and [Basic], on a viewport with
    positive sides, the canvas has the size of the viewport and the array
    holds exactly [CONFIG.particles.count] particles, all without decay
    and with life 1, all on the closed surface; the first frame has
    painted each of them once, at its position; nothing is revealed or
    scheduled by it. *)
Theorem init_fills_and_paints_the_field (s : State) :
  unit_supply (random s) ->
  0 < innerWidth (window s) -> 0 < innerHeight (window s) ->
  0 <= CONFIG.maxSpeed (CONFIG.particles (config s)) ->
  let n := CONFIG.count (CONFIG.particles (config s)) in
  let ready s' :=
    canvas s' =
      {| width := innerWidth (window s); height := innerHeight (window s) |} /\
    length (particles s') = n /\
    Forall (inside (canvas s')) (particles s') /\
    Forall (fun p => Particle.decay p = 0 /\ Particle.life p = 1)
      (particles s') /\
    map (fun d => (cx d, cy d)) (painted (ctx s')) =
      map (fun p => (Particle.x p, Particle.y p)) (particles s') /\
    isRevealed s' = isRevealed s /\ timers s' = timers s in
  ready (Cycling.init s) /\ ready (Basic.init s).
Proof.
  intros Hg Hw Hh Hm n ready.
  assert (Hready : ready (animate (initParticles (Cycling.setupCanvas s)))).
  { set (s1 := Cycling.setupCanvas s).
    destruct (initParticles_frame s1) as (Hc & Hcfg & Ht & _ & Hr & _).
    destruct (initParticles_ambient s1 Hg Hw Hh Hm) as (Hlen & Hall).
    set (s2 := initParticles s1) in *.
    assert (Hlive : Forall (fun p => 0 < Particle.life
                                  (Particle.update (canvas s2) p))
                      (particles s2)).
    { rewrite Hc. eapply Forall_impl; [exact Hall |].
      intros p. apply ambient_on_alive_after_update. }
    unfold ready.
    rewrite particles_animate, painted_animate.
    rewrite sweep_without_deaths, visited_without_deaths by exact Hlive.
    assert (Hcv : canvas (animate s2) = canvas s1)
      by (rewrite <- Hc; unfold animate; branches; reflexivity).
    assert (Hfr : isRevealed (animate s2) = isRevealed s /\
                  timers (animate s2) = timers s)
      by (unfold animate; branches; cbn; rewrite Hr, Ht; split; reflexivity).
    rewrite Hcv. split; [reflexivity |].
    split; [rewrite length_map; exact Hlen |].
    split; [| split; [| split; [| exact Hfr]]].
    - apply Forall_map, Forall_forall. intros p _.
      rewrite Hc. unfold inside, Particle.update; cbn.
      split; apply wrap_range; cbn; lra.
    - apply Forall_map. eapply Forall_impl; [exact Hall |].
      intros p (_ & _ & _ & _ & _ & _ & Hl & Hd).
      rewrite update_decay, update_life, Hd, Hl. split; reflexivity.
    - rewrite <- !list_fmap_compose. reflexivity. }
  split.
  - unfold Cycling.init, ready in *. exact Hready.
  - unfold Basic.init. exact Hready.
Qed.

Lemma init_fills_and_paints_the_field_witness :
  length (particles (Cycling.init (page 800 600 eighths))) = 50%nat /\
  length (particles (Basic.init (page 800 600 eighths))) = 50%nat.
Proof.
  destruct (init_fills_and_paints_the_field (page 800 600 eighths)
              unit_supply_eighths eq_refl eq_refl
              ltac:(vm_compute; discriminate))
    as ((_ & Hc & _) & (_ & Hb & _)).
  split; [exact Hc | exact Hb].
Defined.

(** ** Clicks in [Basic] *)

(** X21: in [Basic] every click or touch adds one burst at the centre
    of the canvas at once, wherever the event was (provided the centre is
    on neither axis), leaves the page revealed and the container marked
    active. *)
Theorem Basic_click_bursts_at_the_centre (e : Event.t) (s : State) :
  unit_supply (random s) ->
  ~ width (canvas s) == 0 -> ~ height (canvas s) == 0 ->
  burst_added (width (canvas s) / 2) (height (canvas s) / 2) s
    (Basic.handleInteraction e s) /\
  isRevealed (Basic.handleInteraction e s) = true /\
  "active" ∈ Element.classList
    (Document.container (document (Basic.handleInteraction e s))).
Proof.
  intros Hg Hw Hh. unfold Basic.handleInteraction.
  split; [| split].
  - assert (Hcv : canvas (pulse (Basic.revealMessage s)) = canvas s)
      by (unfold Basic.revealMessage; branches; reflexivity).
    rewrite Hcv.
    apply (burst_added_after (fun t => pulse (Basic.revealMessage t)));
      try (unfold Basic.revealMessage; branches; reflexivity);
      try assumption; apply half_nonzero; assumption.
  - rewrite isRevealed_createParticleBurst.
    apply Basic_revealMessage_revealed.
  - rewrite document_createParticleBurst.
    cbn -[classList_add]. apply classList_add_has.
Qed.

Lemma Basic_click_bursts_at_the_centre_witness :
  burst_added (800 / 2) (600 / 2) (page 800 600 eighths)
    (Basic.handleInteraction (mouse 3 4) (page 800 600 eighths)).
Proof.
  apply (Basic_click_bursts_at_the_centre (mouse 3 4) (page 800 600 eighths)
           unit_supply_eighths);
    vm_compute; discriminate.
Defined.

(** ** Reveal effects do not pile up *)

Lemma length_filter_delete {A} (P : A -> Prop) `{forall x, Decision (P x)}
    (k : nat) (l : list A) :
  (length (filter P (delete k l)) <= length (filter P l))%nat.
Proof.
  revert k. induction l as [| a l IH]; intros [| k]; simpl delete.
  - reflexivity.
  - reflexivity.
  - rewrite filter_cons. destruct (decide (P a)); cbn [length]; lia.
  - rewrite !filter_cons. specialize (IH k).
    destruct (decide (P a)); cbn [length]; lia.
Qed.

Lemma pending_reveals_fire cb s :
  timers (fire cb s) = timers s.
Proof.
  destruct cb as [| e | | [m |] e | | n]; cbn [fire];
    unfold TapRipple.reveal_effect, Cycling.reveal_effect,
      Basic.reveal_effect, Cycling.fade_in, createParticleBurst;
    branches; reflexivity.
Qed.

Lemma pending_common_step i s :
  (pending_reveals (common_step i s) <= pending_reveals s)%nat.
Proof.
  unfold pending_reveals.
  destruct i; cbn [common_step]; try reflexivity.
  - unfold animate. branches. reflexivity.
  - unfold run_timeout. destruct (timers s !! i); [| reflexivity].
    rewrite pending_reveals_fire. cbn [timers set_timers].
    apply length_filter_delete.
  - unfold addParticles. branches. reflexivity.
Qed.

Ltac pending_tac H :=
  unfold pending_reveals;
  rewrite ?H; cbn -[filter]; branches; cbn -[filter];
  rewrite ?filter_app, ?length_app; cbn;
  repeat case_decide; try congruence; cbn; lia.

Lemma pending_Cycling_step i s :
  isRevealed s = true ->
  (pending_reveals (Cycling_step i s) <= pending_reveals s)%nat.
Proof.
  intros H.
  destruct i; cbn [Cycling_step]; try apply pending_common_step;
    unfold Cycling.handleInteraction, Cycling.handleKeyPress,
      Cycling.revealMessage, Cycling.handleResize, initParticles;
    pending_tac H.
Qed.

Lemma pending_Basic_step i s :
  isRevealed s = true ->
  (pending_reveals (Basic_step i s) <= pending_reveals s)%nat.
Proof.
  intros H.
  destruct i; cbn [Basic_step]; try apply pending_common_step;
    unfold Basic.handleInteraction, Basic.handleKeyPress,
      Basic.revealMessage, Basic.handleResize, initParticles,
      createParticleBurst;
    pending_tac H.
Qed.

Lemma timers_tap_when_revealed e s :
  isRevealed s = true ->
  timers (TapRipple.handleInteraction e s) =
  timers s ++
  [{| delay := 800;
      callback := RemoveRipple (Document.created (document s)) |}].
Proof.
  intros H. unfold TapRipple.handleInteraction.
  destruct (TapRipple.position e s) as [x y].
  destruct (createParticleBurst_frame x y (TapRipple.createRipple x y s))
    as (Hr & _ & _ & Ht & _).
  set (s2 := createParticleBurst x y _) in *.
  assert (E2 : isRevealed s2 = true) by (rewrite Hr; exact H).
  rewrite E2. cbn [negb]. rewrite Ht. reflexivity.
Qed.

Lemma pending_TapRipple_step i s :
  isRevealed s = true ->
  (pending_reveals (TapRipple_step i s) <= pending_reveals s)%nat.
Proof.
  intros H.
  assert (Htap : forall e,
    (pending_reveals (TapRipple.handleInteraction e s)
     <= pending_reveals s)%nat).
  { intros e. unfold pending_reveals. rewrite (timers_tap_when_revealed e s H).
    rewrite filter_app, length_app.
    rewrite filter_cons_False by (cbn; discriminate). cbn. lia. }
  destruct i; cbn [TapRipple_step]; try apply pending_common_step;
    try apply Htap;
    unfold TapRipple.handleKeyPress,
      TapRipple.revealMessage, TapRipple.handleResize,
      TapRipple.handleScroll;
    pending_tac H.
Qed.

(** X19: once the page is revealed, no sequence of inputs, in any
    variant, schedules another reveal effect: the number of reveal
    callbacks pending never grows. *)
Theorem reveal_effects_do_not_pile_up inputs s :
  isRevealed s = true ->
  (pending_reveals (run Cycling_step inputs s) <= pending_reveals s)%nat /\
  (pending_reveals (run Basic_step inputs s) <= pending_reveals s)%nat /\
  (pending_reveals (run TapRipple_step inputs s) <= pending_reveals s)%nat.
Proof.
  intros H.
  assert (Hgen : forall step,
    (forall i t, isRevealed t = true -> isRevealed (step i t) = true) ->
    (forall i t, isRevealed t = true ->
       (pending_reveals (step i t) <= pending_reveals t)%nat) ->
    (pending_reveals (run step inputs s) <= pending_reveals s)%nat).
  { intros step Hkeep Hstep.
    apply (run_invariant
             (fun t => isRevealed t = true /\
                       (pending_reveals t <= pending_reveals s)%nat) step).
    - intros i t [Hr Hle]. split; [apply Hkeep, Hr |].
      specialize (Hstep i t Hr). lia.
    - split; [exact H | lia]. }
  split; [| split]; apply Hgen;
    auto using Cycling_step_keeps_revealed, Basic_step_keeps_revealed,
      TapRipple_step_keeps_revealed, pending_Cycling_step,
      pending_Basic_step, pending_TapRipple_step.
Qed.

Lemma reveal_effects_do_not_pile_up_witness :
  let s := Cycling_step (click (mouse 400 300)) (page 800 600 eighths) in
  (pending_reveals
     (run Cycling_step [click (mouse 1 1); keypress (keyboard "Enter")] s)
   <= pending_reveals s)%nat.
Proof.
  intros s.
  exact (proj1 (reveal_effects_do_not_pile_up
                  [click (mouse 1 1); keypress (keyboard "Enter")] s
                  eq_refl)).
Defined.

(** ** Frames in a row *)

Lemma canvas_animate s : canvas (animate s) = canvas s.
Proof. unfold animate. destruct (forEach _ _ _). reflexivity. Qed.

Lemma canvas_frames n s : canvas (frames n s) = canvas s.
Proof.
  induction n as [| n IH]; [reflexivity |].
  change (frames (S n) s) with (animate (frames n s)).
  rewrite canvas_animate. exact IH.
Qed.

(** X1: what a frame leaves in the array is what [sweep] describes: the
    updated particles whose life has not run out, in their order, and
    after each particle that was spliced out the next particle of the
    array as it was.  In particular, when the first particle dies in the
    frame, the second one stays in the array without an update. *)
Theorem animate_passes_over_the_next_particle (s : State) :
  particles (animate s) = sweep (canvas s) (particles s) /\
  (forall p q rest,
     particles s = p :: q :: rest ->
     dead (Particle.update (canvas s) p) = true ->
     particles (animate s) = q :: sweep (canvas s) rest).
Proof.
  split; [apply particles_animate |].
  intros p q rest Hps Hdead. rewrite particles_animate, Hps.
  cbn [sweep]. unfold dead in Hdead. rewrite Hdead. reflexivity.
Qed.

(** X2: no number of frames removes an ambient particle (no decay, life
    above 0): the array holds as many of them after [n] frames as
    before. *)
Theorem frames_keep_every_ambient_particle (n : nat) (s : State) :
  length (filter (fun p => ambient p = true) (particles (frames n s))) =
  length (filter (fun p => ambient p = true) (particles s)).
Proof.
  induction n as [| n IH]; [reflexivity |].
  change (frames (S n) s) with (animate (frames n s)).
  rewrite animate_keeps_ambient. exact IH.
Qed.

(** X3: over any number of frames the closed surface is kept: when the
    sides of the canvas are not negative and every particle is on
    [[0, width] x [0, height]], every particle in the array after [n]
    frames is on it, the passed-over ones included. *)
Theorem frames_keep_particles_on_the_surface (n : nat) (s : State) :
  0 <= width (canvas s) -> 0 <= height (canvas s) ->
  Forall (inside (canvas s)) (particles s) ->
  Forall (inside (canvas s)) (particles (frames n s)).
Proof.
  intros Hw Hh Hall.
  induction n as [| n IH]; [exact Hall |].
  change (frames (S n) s) with (animate (frames n s)).
  rewrite <- (canvas_frames n s) in *.
  apply animate_keeps_inside; assumption.
Qed.

Lemma frames_keep_particles_on_the_surface_witness :
  Forall (inside surface_800x600)
    (particles
       (frames 3 (createParticleBurst 400 300 (page 800 600 eighths)))).
Proof.
  apply (frames_keep_particles_on_the_surface 3
           (createParticleBurst 400 300 (page 800 600 eighths))).
  - vm_compute. discriminate.
  - vm_compute. discriminate.
  - vm_compute. repeat constructor; discriminate.
Defined.

(** X4: a frame starts from a cleared surface and paints one disc for
    every particle its loop calls on, in the order of the calls: at the
    position the particle has after its update, with its size, with the
    opacity it has after the update as the alpha assigned, in the
    configured colour.  What was painted before the frame is gone, a
    passed-over particle is not painted, and there are at most as many
    discs as the array held particles. *)
Theorem animate_paints_the_visited (s : State) :
  painted (ctx (animate s)) =
    map (disc_of (CONFIG.color (CONFIG.particles (config s))))
      (visited (canvas s) (particles s)) /\
  (length (painted (ctx (animate s))) <= length (particles s))%nat.
Proof.
  rewrite painted_animate, length_map.
  split; [reflexivity |].
  apply (sweep_visited_count _ (length (particles s))). lia.
Qed.

Lemma animate_passes_over_the_next_particle_witness :
  particles
    (animate (set_particles [dying; leftward] (page 800 600 eighths))) =
  [leftward].
Proof.
  apply (proj2 (animate_passes_over_the_next_particle
                  (set_particles [dying; leftward] (page 800 600 eighths)))
           dying leftward []); reflexivity.
Defined.

Lemma every_tap_makes_a_ripple_witness :
  let s := TapRipple.handleInteraction (mouse 100 200) (page 800 600 eighths) in
  length (Document.body (document s)) = 1%nat /\
  length (Document.body
            (document (TapRipple.handleInteraction (mouse 5 5) s))) = 2%nat.
Proof.
  intros s.
  destruct (every_tap_makes_a_ripple (mouse 100 200) (page 800 600 eighths))
    as (H1 & _).
  destruct (every_tap_makes_a_ripple (mouse 5 5) s) as (H2 & _).
  fold s in H1. split.
  - rewrite H1. reflexivity.
  - rewrite H2, length_app, H1. reflexivity.
Defined.

Lemma prompt_is_never_shown_again_witness :
  let s := Cycling_step (click (mouse 400 300)) (page 800 600 eighths) in
  hidden_prompt
    (run Cycling_step
       [timeout 0; timeout 0; click (mouse 1 1); timeout 0; frame] s).
Proof.
  intros s.
  assert (H : hidden_prompt s) by (split; constructor).
  exact (proj1 (prompt_is_never_shown_again
                  [timeout 0; timeout 0; click (mouse 1 1); timeout 0; frame]
                  s H)).
Defined.
